(** * eisc-chat: presence registry, message relay and history retrieval

    A shallow embedding of [src/api/index.ts] (the Socket.IO handlers
    [newUser], [sendMessage], [disconnect] and the HTTP routes) and of
    [getAllMessages] from the message service, followed by the properties
    the specification states about them.

    Conventions.
    - A JavaScript string is the list of its UTF-16 code units.
    - The module-level [let onlineUsers] is a field of the server state.
    - [Date.now()] reads a wall clock kept in the server state; the clock
      only moves forward, and only while a handler is suspended on an
      [await] or between two events.
    - Firestore is an external collaborator.  Its collection is a list of
      documents; whether an [add] is accepted, which identifier it assigns
      and how long it takes are supplied by the environment with the event.
    - Everything a handler sends out ([io.emit], [socket.emit], the HTTP
      reply) and every write it attempts is appended to a log of effects,
      oldest first.  Console output is not observable by clients and is kept
      only as a no-op so that the handlers read like the source. *)

From Stdlib Require Import List ZArith NArith Bool Lia String Ascii.
From Stdlib Require Import Permutation Sorted.
Import ListNotations.

Local Open Scope Z_scope.

(* ===================================================================== *)
(** ** JavaScript strings *)
(* ===================================================================== *)

Module Js.

(** A string value: its UTF-16 code units. *)
Definition str := list N.

(** An ASCII literal as a JavaScript string. *)
Fixpoint lit (s : string) : str :=
  match s with
  | EmptyString => []
  | String c r => N_of_ascii c :: lit r
  end.

(** [a === b] on strings. *)
Fixpoint eqb (a b : str) : bool :=
  match a, b with
  | [], [] => true
  | x :: a', y :: b' => N.eqb x y && eqb a' b'
  | _, _ => false
  end.

(** ToBoolean on a string: only the empty string is falsy. *)
Definition truthy (s : str) : bool :=
  match s with [] => false | _ :: _ => true end.

(** WhiteSpace and LineTerminator code points of ECMAScript (all of them
    lie in the basic plane, so they are single code units):
    TAB, LF, VT, FF, CR, SP, NBSP, the Zs category, LS, PS and ZWNBSP. *)
Definition isWhiteSpace (c : N) : bool :=
  ((9 <=? c) && (c <=? 13) || (c =? 32) || (c =? 160) || (c =? 5760)
   || (8192 <=? c) && (c <=? 8202) || (c =? 8232) || (c =? 8233)
   || (c =? 8239) || (c =? 8287) || (c =? 12288) || (c =? 65279))%N.

Fixpoint trimStart (s : str) : str :=
  match s with
  | [] => []
  | c :: r => if isWhiteSpace c then trimStart r else s
  end.

Definition trimEnd (s : str) : str := rev (trimStart (rev s)).

(** [String.prototype.trim]. *)
Definition trim (s : str) : str := trimEnd (trimStart s).

(** Lexicographic order on code units, used to order document names. *)
Fixpoint leb (a b : str) : bool :=
  match a, b with
  | [], _ => true
  | _ :: _, [] => false
  | x :: a', y :: b' => (x <? y)%N || (x =? y)%N && leb a' b'
  end.

(** A JavaScript number as far as the server needs it: NaN, a safe
    integer (at most 2^53 - 1 in absolute value, held exactly by a double),
    or [Unsafe]: a double beyond the safe integers, that is a rounded
    integer or an infinity.  The server only tests a number for truth and
    hands it to [limit], and both treat all unsafe numbers alike. *)
Inductive num := NaN | Int (z : Z) | Unsafe.

(** [Number.MAX_SAFE_INTEGER] *)
Definition MAX_SAFE_INTEGER : Z := 9007199254740991.

(** ToBoolean on a number: NaN and zero are falsy. *)
Definition num_truthy (n : num) : bool :=
  match n with
  | NaN => false
  | Int z => negb (z =? 0)
  | Unsafe => true
  end.

(** Value of a code unit as a digit in the given radix. *)
Definition digit (radix : Z) (c : N) : option Z :=
  let c := Z.of_N c in
  let v := if (48 <=? c) && (c <=? 57) then c - 48
           else if (97 <=? c) && (c <=? 122) then c - 87
           else if (65 <=? c) && (c <=? 90) then c - 55
           else 36 in
  if v <? radix then Some v else None.

(** The longest prefix of digits, read left to right. *)
Fixpoint digits (radix : Z) (s : str) (acc : option Z) : option Z :=
  match s with
  | [] => acc
  | c :: r =>
      match digit radix c with
      | Some v =>
          digits radix r
            (Some (match acc with Some a => a * radix + v | None => v end))
      | None => acc
      end
  end.

(** [parseInt(s)] with no radix argument: leading white space is skipped,
    an optional sign is read, a [0x]/[0X] prefix selects radix 16, and the
    longest prefix of digits is the value; no digit at all gives NaN.  The
    result is a double: exact within the safe integers, rounded or infinite
    beyond them. *)
Definition parseInt (s : str) : num :=
  let s := trimStart s in
  let '(sign, s) :=
    match s with
    | 45%N :: r => (-1, r)
    | 43%N :: r => (1, r)
    | _ => (1, s)
    end in
  let '(radix, s) :=
    match s with
    | 48%N :: 120%N :: r => (16, r)
    | 48%N :: 88%N :: r => (16, r)
    | _ => (10, s)
    end in
  match digits radix s None with
  | Some v =>
      if Z.abs (sign * v) <=? MAX_SAFE_INTEGER then Int (sign * v)
      else Unsafe
  | None => NaN
  end.

End Js.

(* ===================================================================== *)
(** ** Data model ([src/api/types.ts]) *)
(* ===================================================================== *)

Record OnlineUser := mkOnlineUser {
  socketId : Js.str;
  userId : Js.str
}.

Record Message := mkMessage {
  senderId : Js.str;
  text : Js.str;
  timestamp : Z
}.

(** [StoredMessage] and [ReceiveMessagePayload]: a [Message] with an
    optional [id]. *)
Record StoredMessage := mkStored {
  message :> Message;
  id : option Js.str
}.

Definition ReceiveMessagePayload := StoredMessage.

Record SendMessagePayload := mkPayload {
  payload_senderId : Js.str;
  payload_text : Js.str
}.

(** Events the server sends to clients ([ServerToClientEvents]). *)
Inductive ServerEvent :=
| usersOnline (users : list OnlineUser)
| newMessage (m : ReceiveMessagePayload).

(** A document of the Firestore collection ["messages"], of the shape
    [types.ts] declares for stored messages and [sendMessage] writes: a name
    and the three fields of a [Message].  Documents of another shape are
    outside the model. *)
Record Doc := mkDoc {
  doc_id : Js.str;
  doc_data : Message
}.

(** Bodies of the HTTP replies. *)
Inductive Body :=
| StatusBody (online : nat)
| HealthBody (at_time : Z)
| MessagesBody (messages : list StoredMessage)
| FailureBody.

(** What a handler does to the outside world. *)
Inductive Effect :=
| DbAdd (m : Message) (assigned : option Js.str)
| IoEmit (ev : ServerEvent)
| SocketEmit (to : Js.str) (ev : ServerEvent)
| HttpJson (status : Z) (body : Body).

(** Server state. *)
Record Server := mkServer {
  onlineUsers : list OnlineUser;
  clock : Z;
  collection : list Doc;
  effects : list Effect
}.

(** Answer of Firestore to one [add]: the identifier it assigned, or
    [None] when the promise is rejected, and the time the call took. *)
Record AddReply := mkReply {
  assigned : option Js.str;
  latency : N
}.

(* ===================================================================== *)
(** ** Handler monad: state, and exceptions for [try]/[catch] *)
(* ===================================================================== *)

Inductive Outcome (A : Type) :=
| Returned (a : A)
| Thrown.
Arguments Returned {A} a.
Arguments Thrown {A}.

Definition Handler (A : Type) := Server -> Outcome A * Server.

Definition ret {A} (a : A) : Handler A := fun s => (Returned a, s).

Definition bind {A B} (c : Handler A) (k : A -> Handler B) : Handler B :=
  fun s =>
    match c s with
    | (Returned a, s') => k a s'
    | (Thrown, s') => (Thrown, s')
    end.

Definition throw {A} : Handler A := fun s => (Thrown, s).

Definition try_catch {A} (body : Handler A) (handler : Handler A)
  : Handler A :=
  fun s =>
    match body s with
    | (Returned a, s') => (Returned a, s')
    | (Thrown, s') => handler s'
    end.

Declare Scope handler_scope.
Delimit Scope handler_scope with handler.
Notation "x <- c ;; k" := (bind c (fun x => k))
  (at level 61, c at next level, right associativity) : handler_scope.
Notation "c ;; k" := (bind c (fun _ => k))
  (at level 61, right associativity) : handler_scope.
Notation "'try' b 'catch' h" := (try_catch b h)
  (at level 62, b at level 61, h at level 61) : handler_scope.
Local Open Scope handler_scope.

(** Final state of a handler; an exception escaping a handler is dropped
    by the event loop. *)
Definition exec {A} (c : Handler A) (s : Server) : Server := snd (c s).

(** *** Primitive operations *)

Definition get_onlineUsers : Handler (list OnlineUser) :=
  fun s => (Returned (onlineUsers s), s).

Definition set_onlineUsers (l : list OnlineUser) : Handler unit :=
  fun s => (Returned tt,
            mkServer l (clock s) (collection s) (effects s)).

Definition emit (e : Effect) : Handler unit :=
  fun s => (Returned tt,
            mkServer (onlineUsers s) (clock s) (collection s)
                     (effects s ++ [e])).

Definition Date_now : Handler Z := fun s => (Returned (clock s), s).

Definition io_emit (ev : ServerEvent) : Handler unit := emit (IoEmit ev).

Definition socket_emit (socket : Js.str) (ev : ServerEvent) : Handler unit :=
  emit (SocketEmit socket ev).

Definition res_json (status : Z) (body : Body) : Handler unit :=
  emit (HttpJson status body).

Definition console_log : Handler unit := ret tt.
Definition console_warn : Handler unit := ret tt.
Definition console_error : Handler unit := ret tt.

(** [await db.collection("messages").add(m)]: the clock advances by the
    latency of the call; an accepted write appends the document and
    returns its identifier, a rejected one throws. *)
Definition db_add (reply : AddReply) (m : Message) : Handler Js.str :=
  fun s =>
    let t := clock s + Z.of_N (latency reply) in
    match assigned reply with
    | Some i =>
        (Returned i,
         mkServer (onlineUsers s) t (collection s ++ [mkDoc i m])
                  (effects s ++ [DbAdd m (Some i)]))
    | None =>
        (Thrown,
         mkServer (onlineUsers s) t (collection s)
                  (effects s ++ [DbAdd m None]))
    end.

(* ===================================================================== *)
(** ** Firestore queries (external collaborator) *)
(* ===================================================================== *)

Module Firestore.

(** [a] comes before [b] under [orderBy("timestamp", "desc")]: larger
    timestamp first, equal timestamps by document name, descending. *)
Definition before (a b : Doc) : bool :=
  (timestamp (doc_data b) <? timestamp (doc_data a))
  || (timestamp (doc_data b) =? timestamp (doc_data a))
     && Js.leb (doc_id b) (doc_id a).

Fixpoint insert (d : Doc) (l : list Doc) : list Doc :=
  match l with
  | [] => [d]
  | e :: r => if before d e then d :: l else e :: insert d r
  end.

Definition orderByTimestampDesc (l : list Doc) : list Doc :=
  fold_right insert [] l.

(** [.orderBy("timestamp", "desc").limit(n).get()].  [limit] refuses a
    number that is not a safe integer and the store refuses a negative
    limit: the call throws or the promise is rejected.  A limit of zero is
    left out of the query, which then returns every document.  Otherwise
    the snapshot holds the first [n] documents in query order. *)
Definition recent (n : Js.num) (l : list Doc) : option (list Doc) :=
  match n with
  | Js.Int z =>
      if (z <? 0) || (Js.MAX_SAFE_INTEGER <? z) then None
      else if z =? 0 then Some (orderByTimestampDesc l)
      else Some (firstn (Z.to_nat z) (orderByTimestampDesc l))
  | _ => None
  end.

End Firestore.

(** [await query.get()]: the snapshot, or an exception. *)
Definition db_recent (limit : Js.num) : Handler (list Doc) :=
  fun s =>
    match Firestore.recent limit (collection s) with
    | Some snapshot => (Returned snapshot, s)
    | None => (Thrown, s)
    end.

(* ===================================================================== *)
(** ** The handlers of [src/api/index.ts] *)
(* ===================================================================== *)

(** [!userId || userId.trim() === ""] *)
Definition invalidUserId (uid : Js.str) : bool :=
  negb (Js.truthy uid) || Js.eqb (Js.trim uid) (Js.lit "").

(** [socket.on("newUser", ...)], for the socket whose id is [sid]. *)
Definition newUser (sid uid : Js.str) : Handler unit :=
  try
    (if invalidUserId uid then
       console_warn ;; ret tt
     else
       users <- get_onlineUsers ;;
       let existingUser := find (fun user => Js.eqb (userId user) uid) users in
       match existingUser with
       | Some _ =>
           console_log ;;
           set_onlineUsers
             (map (fun user =>
                     if Js.eqb (userId user) uid
                     then mkOnlineUser sid (userId user)
                     else user) users)
       | None =>
           set_onlineUsers (users ++ [mkOnlineUser sid uid]) ;;
           console_log
       end ;;
       users <- get_onlineUsers ;;
       io_emit (usersOnline users))
  catch console_error.

Definition systemError (now : Z) : ReceiveMessagePayload :=
  mkStored
    (mkMessage (Js.lit "system")
               (Js.lit "Error sending message. Please try again.") now)
    None.

(** [socket.on("sendMessage", ...)], for the socket whose id is [sid];
    [reply] is Firestore's answer to the write, should one be issued. *)
Definition sendMessage (sid : Js.str) (payload : SendMessagePayload)
    (reply : AddReply) : Handler unit :=
  try
    (let senderId := payload_senderId payload in
     let text := payload_text payload in
     if negb (Js.truthy senderId) || negb (Js.truthy text) then
       console_error ;; ret tt
     else
       now <- Date_now ;;
       let message := mkMessage senderId text now in
       console_log ;;
       messageRef_id <- db_add reply message ;;
       console_log ;;
       io_emit (newMessage (mkStored message (Some messageRef_id))) ;;
       console_log)
  catch
    (console_error ;;
     now <- Date_now ;;
     socket_emit sid (newMessage (systemError now))).

(** [socket.on("disconnect", ...)], for the socket whose id is [sid]. *)
Definition disconnect (sid : Js.str) : Handler unit :=
  users <- get_onlineUsers ;;
  let disconnectedUser :=
    find (fun user => Js.eqb (socketId user) sid) users in
  match disconnectedUser with
  | Some _ => console_log
  | None => console_log
  end ;;
  set_onlineUsers
    (filter (fun user => negb (Js.eqb (socketId user) sid)) users) ;;
  console_log ;;
  users <- get_onlineUsers ;;
  io_emit (usersOnline users).

(** [io.on("connection", ...)] itself only logs. *)
Definition connection (sid : Js.str) : Handler unit := console_log.

(** [app.get("/")] *)
Definition getRoot : Handler unit :=
  users <- get_onlineUsers ;;
  res_json 200 (StatusBody (List.length users)).

(** [app.get("/health")] *)
Definition getHealth : Handler unit :=
  now <- Date_now ;;
  res_json 200 (HealthBody now).

(** [parseInt(req.query.limit as string) || 100]; an absent parameter is
    [undefined], which [parseInt] reads as the text "undefined". *)
Definition requestedLimit (param : option Js.str) : Js.num :=
  let parsed :=
    match param with
    | Some s => Js.parseInt s
    | None => Js.NaN
    end in
  if Js.num_truthy parsed then parsed else Js.Int 100.

(** [{ id: doc.id, ...doc.data() }], for a document of the declared
    shape: its name and its three fields. *)
Definition stored (d : Doc) : StoredMessage :=
  mkStored (doc_data d) (Some (doc_id d)).

(** [app.get("/api/messages")] *)
Definition getApiMessages (param : option Js.str) : Handler unit :=
  try
    (let limit := requestedLimit param in
     snapshot <- db_recent limit ;;
     let messages := map stored snapshot in
     res_json 200 (MessagesBody (rev messages)))
  catch
    (console_error ;;
     res_json 500 FailureBody).

(* ===================================================================== *)
(** ** The message service ([getAllMessages]) *)
(* ===================================================================== *)

(** [getAllMessages(limit = 100)]: the promise resolves to the messages,
    oldest first, or is rejected (the [catch] logs and rethrows).
    [None] as argument is an omitted [limit]; a given limit is an
    integer. *)
Definition getAllMessages (limit : option Z) : Handler (list StoredMessage) :=
  let limit := match limit with Some n => n | None => 100 end in
  try
    (snapshot <- db_recent (Js.Int limit) ;;
     let messages :=
       map (fun doc =>
              let data := doc_data doc in
              mkStored (mkMessage (senderId data) (text data) (timestamp data))
                       (Some (doc_id doc)))
           snapshot in
     ret (rev messages))
  catch
    (console_error ;; throw).

(* ===================================================================== *)
(** ** The server as a whole *)
(* ===================================================================== *)

(** What can happen to the server. *)
Inductive Event :=
| Connection (sid : Js.str)
| NewUser (sid uid : Js.str)
| SendMessage (sid : Js.str) (payload : SendMessagePayload) (reply : AddReply)
| Disconnect (sid : Js.str)
| GetRoot
| GetHealth
| GetApiMessages (limit : option Js.str)
| Elapse (d : N).

Definition handle (e : Event) : Handler unit :=
  match e with
  | Connection sid => connection sid
  | NewUser sid uid => newUser sid uid
  | SendMessage sid payload reply => sendMessage sid payload reply
  | Disconnect sid => disconnect sid
  | GetRoot => getRoot
  | GetHealth => getHealth
  | GetApiMessages limit => getApiMessages limit
  | Elapse d =>
      fun s => (Returned tt,
                mkServer (onlineUsers s) (clock s + Z.of_N d)
                         (collection s) (effects s))
  end.

Definition step (s : Server) (e : Event) : Server := exec (handle e) s.

Definition run (es : list Event) (s : Server) : Server := fold_left step es s.

(** The server right after start-up: nobody online, nothing sent yet, the
    clock and the stored messages whatever they are. *)
Definition boot (t0 : Z) (docs : list Doc) : Server := mkServer [] t0 docs [].

(** Registry states the handlers can produce from the empty registry. *)
Definition registry_after (es : list Event) (t0 : Z) (docs : list Doc)
  : list OnlineUser :=
  onlineUsers (run es (boot t0 docs)).

(* ===================================================================== *)
(** ** Notions used in the statements *)
(* ===================================================================== *)

(** A string made of white space only; the empty string is one. *)
Definition whitespaceOnly (s : Js.str) : bool := forallb Js.isWhiteSpace s.

(** The events [io.emit] sent to every connection, oldest first. *)
Fixpoint broadcasts (l : list Effect) : list ServerEvent :=
  match l with
  | [] => []
  | IoEmit ev :: r => ev :: broadcasts r
  | _ :: r => broadcasts r
  end.

(** The events [socket.emit] sent to one connection, with their target. *)
Fixpoint privates (l : list Effect) : list (Js.str * ServerEvent) :=
  match l with
  | [] => []
  | SocketEmit to ev :: r => (to, ev) :: privates r
  | _ :: r => privates r
  end.

(** Every chat message broadcast in [l] was accepted by the store, under
    the identifier it carries, earlier in [l]. *)
Definition persisted_before_broadcast (l : list Effect) : Prop :=
  forall (n : nat) (p : ReceiveMessagePayload),
    nth_error l n = Some (IoEmit (newMessage p)) ->
    exists (i : Js.str) (k : nat),
      id p = Some i /\ (k < n)%nat /\
      nth_error l k = Some (DbAdd (message p) (Some i)).

(** The registrations a sequence of events gets accepted, as pairs of
    connection and user. *)
Definition registrations (es : list Event) : list (Js.str * Js.str) :=
  flat_map (fun e =>
              match e with
              | NewUser sid uid =>
                  if invalidUserId uid then [] else [(sid, uid)]
              | _ => []
              end) es.

(** Every entry of the registry comes from a registration in [regs]. *)
Definition within (regs : list (Js.str * Js.str)) (users : list OnlineUser)
  : Prop :=
  forall u, In u users -> In (socketId u, userId u) regs.

(** No connection registers under two different user identifiers. *)
Definition one_identity_per_socket (es : list Event) : bool :=
  let rs := registrations es in
  forallb (fun a =>
             forallb (fun b =>
                        implb (Js.eqb (fst a) (fst b))
                              (Js.eqb (snd a) (snd b))) rs) rs.

(** Handlers that may write the registry. *)
Definition registry_writer (e : Event) : bool :=
  match e with
  | NewUser _ _ | Disconnect _ => true
  | _ => false
  end.

(** Oldest first. *)
Definition ascending (l : list StoredMessage) : Prop :=
  StronglySorted (fun a b : StoredMessage => timestamp a <= timestamp b) l.

(** Newest first, for documents. *)
Definition newest_first (l : list Doc) : Prop :=
  StronglySorted
    (fun a b : Doc => timestamp (doc_data b) <= timestamp (doc_data a)) l.

(** [snapshot] holds the [n] most recent documents of [docs] (all of them
    when there are fewer): together with the documents left out it makes up
    [docs], and nothing left out is more recent than anything in it. *)
Definition most_recent (n : nat) (snapshot docs : list Doc) : Prop :=
  List.length snapshot = Nat.min n (List.length docs)
  /\ exists older,
       Permutation (snapshot ++ older) docs
       /\ forall d o, In d snapshot -> In o older ->
                      timestamp (doc_data o) <= timestamp (doc_data d).

(** The reply of [GET /api/messages], if the last effect is one. *)
Definition lastReply (s : Server) : option (Z * Body) :=
  match rev (effects s) with
  | HttpJson status body :: _ => Some (status, body)
  | _ => None
  end.

(** The registry [newUser] leaves behind once the identifier is accepted
    (the two branches of the handler, named). *)
Definition registered (sid uid : Js.str) (users : list OnlineUser)
  : list OnlineUser :=
  match find (fun user => Js.eqb (userId user) uid) users with
  | Some _ =>
      map (fun user =>
             if Js.eqb (userId user) uid
             then mkOnlineUser sid (userId user)
             else user) users
  | None => users ++ [mkOnlineUser sid uid]
  end.

(** The registry [disconnect] leaves behind. *)
Definition removed (sid : Js.str) (users : list OnlineUser)
  : list OnlineUser :=
  filter (fun user => negb (Js.eqb (socketId user) sid)) users.

(** The registry after one event. *)
Definition registry_step (users : list OnlineUser) (e : Event)
  : list OnlineUser :=
  match e with
  | NewUser sid uid =>
      if invalidUserId uid then users else registered sid uid users
  | Disconnect sid => removed sid users
  | _ => users
  end.

(** Sample connections, users and stored messages for concrete runs. *)
Module Sample.
Definition X : Js.str := Js.lit "socket-X".
Definition Y : Js.str := Js.lit "socket-Y".
Definition alice : Js.str := Js.lit "alice".
Definition bob : Js.str := Js.lit "bob".
Definition hi : SendMessagePayload := mkPayload alice (Js.lit "hi").
Definition blank : SendMessagePayload := mkPayload alice (Js.lit "   ").
Definition accepted : AddReply := mkReply (Some (Js.lit "doc-1")) 7.
Definition refused : AddReply := mkReply None 7.
Definition old : Doc := mkDoc (Js.lit "doc-0") (mkMessage bob (Js.lit "yo") 10).
Definition session : list Event :=
  [Connection X; NewUser X alice; Connection Y; NewUser Y bob;
   SendMessage X hi accepted; NewUser Y (Js.lit " "); Disconnect X].
End Sample.

(* ===================================================================== *)
(** ** Further code: configuration, Firebase start-up, deletion, client *)
(* ===================================================================== *)

Module JsText.

(** [s.split(sep)] for a separator of one code unit: the pieces between
    the separators, the empty string giving one empty piece. *)
Fixpoint split (sep : N) (s : Js.str) : list Js.str :=
  match s with
  | [] => [[]]
  | c :: r =>
      if (c =? sep)%N then [] :: split sep r
      else match split sep r with
           | piece :: pieces => (c :: piece) :: pieces
           | [] => [[c]]
           end
  end.

(** [s.replace(/\\n/g, "\n")]: every backslash followed by the letter n
    becomes one line feed, scanning left to right. *)
Fixpoint unescapeNewlines (s : Js.str) : Js.str :=
  match s with
  | [] => []
  | c :: r =>
      match r with
      | d :: r' =>
          if ((c =? 92) && (d =? 110))%N then 10%N :: unescapeNewlines r'
          else c :: unescapeNewlines r
      | [] => [c]
      end
  end.

(** Some backslash in [s] is directly followed by the letter n. *)
Fixpoint hasEscapedNewline (s : Js.str) : bool :=
  match s with
  | [] => false
  | c :: r =>
      match r with
      | d :: _ => ((c =? 92) && (d =? 110))%N || hasEscapedNewline r
      | [] => false
      end
  end.

(** [String(n)], as in a template literal, for a natural number that is a
    safe integer: its decimal digits.  [fuel] bounds the number of digits. *)
Fixpoint decimal_fuel (fuel : nat) (n : N) (acc : Js.str) : Js.str :=
  match fuel with
  | O => acc
  | S fuel' =>
      let acc' := (48 + n mod 10)%N :: acc in
      if (n <? 10)%N then acc' else decimal_fuel fuel' (n / 10)%N acc'
  end.

Definition decimal (n : N) : Js.str := decimal_fuel (S (N.to_nat n)) n [].

End JsText.

(** [process.env], as far as the server reads it; [None] is an unset
    variable. *)
Record ProcessEnv := mkEnv {
  ORIGIN : option Js.str;
  FIREBASE_PROJECT_ID : option Js.str;
  FIREBASE_PRIVATE_KEY : option Js.str;
  FIREBASE_CLIENT_EMAIL : option Js.str
}.

(** [!v] for a variable of the environment. *)
Definition unset (v : option Js.str) : bool :=
  match v with
  | Some s => negb (Js.truthy s)
  | None => true
  end.

(** The CORS origins of [src/api/index.ts]:
    [(process.env.ORIGIN ?? "").split(",").map(s => s.trim()).filter(Boolean)] *)
Definition origins (env : ProcessEnv) : list Js.str :=
  filter Js.truthy
    (map Js.trim
       (JsText.split 44 (match ORIGIN env with Some s => s | None => [] end))).

(** The service account handed to [admin.credential.cert]. *)
Record ServiceAccount := mkAccount {
  projectId : Js.str;
  privateKey : Js.str;
  clientEmail : Js.str
}.

(** How [initializeFirebase] ends. *)
Inductive Startup :=
| Ready (apps : list ServiceAccount)
| MissingConfiguration
| CredentialRejected.

(** [initializeFirebase] of the Firebase module.  [apps] is [admin.apps];
    [cert] tells whether the Admin SDK accepts a service account (it parses
    the key) and stands for [admin.credential.cert] throwing. *)
Definition initializeFirebase (cert : ServiceAccount -> bool)
    (env : ProcessEnv) (apps : list ServiceAccount) : Startup :=
  match apps with
  | [] =>
      let privateKey :=
        option_map JsText.unescapeNewlines (FIREBASE_PRIVATE_KEY env) in
      if unset (FIREBASE_PROJECT_ID env) || unset privateKey
         || unset (FIREBASE_CLIENT_EMAIL env)
      then MissingConfiguration
      else
        match FIREBASE_PROJECT_ID env, privateKey, FIREBASE_CLIENT_EMAIL env
        with
        | Some p, Some k, Some e =>
            let account := mkAccount p k e in
            if cert account then Ready [account] else CredentialRejected
        | _, _, _ => MissingConfiguration
        end
  | _ :: _ => Ready apps
  end.

(** Answer of Firestore to one [delete]: accepted or rejected, and the time
    the call took. *)
Record DeleteReply := mkDeleteReply {
  deleted : bool;
  delete_latency : N
}.

(** The path has two slashes in a row. *)
Fixpoint hasDoubleSlash (path : Js.str) : bool :=
  match path with
  | [] => false
  | c :: r =>
      match r with
      | d :: _ => ((c =? 47) && (d =? 47))%N || hasDoubleSlash r
      | [] => false
      end
  end.

(** [collection("messages").doc(path)] returns a reference instead of
    throwing: the path is a non-empty string without two slashes in a row,
    and its non-empty segments, appended to the collection, end on a
    document, that is, their number is odd. *)
Definition documentPath (path : Js.str) : bool :=
  Js.truthy path
  && negb (hasDoubleSlash path)
  && Nat.odd (List.length (filter Js.truthy (JsText.split 47 path))).

(** [await db.collection("messages").doc(messageId).delete()]: [doc]
    throws for a path that names no document, before the store is asked;
    otherwise the store answers. *)
Definition db_delete (reply : DeleteReply) (messageId : Js.str)
  : Handler unit :=
  fun s =>
    if documentPath messageId then
      let t := clock s + Z.of_N (delete_latency reply) in
      if deleted reply then
        (Returned tt,
         mkServer (onlineUsers s) t
                  (filter (fun d => negb (Js.eqb (doc_id d) messageId))
                          (collection s))
                  (effects s))
      else
        (Thrown, mkServer (onlineUsers s) t (collection s) (effects s))
    else (Thrown, s).

(** [deleteMessage(messageId)] of the message service: the promise resolves,
    or is rejected (the [catch] logs and rethrows). *)
Definition deleteMessage (messageId : Js.str) (reply : DeleteReply)
  : Handler unit :=
  try
    (db_delete reply messageId ;;
     console_log)
  catch
    (console_error ;; throw).

(** What the client helper of the integration guide does. *)
Inductive ClientAction :=
| Emit (payload : SendMessagePayload)
| Alert (message : Js.str).

(** The guide's [sendMessage(senderId, text)].  [socket] is [getSocket()]:
    [None] for no socket, otherwise whether it is connected. *)
Definition clientSendMessage (socket : option bool) (senderId text : Js.str)
  : ClientAction :=
  if match socket with Some connected => negb connected | None => true end
  then Alert (Js.lit "Not connected to server")
  else if negb (Js.truthy senderId)
  then Alert (Js.lit "User not logged in")
  else if negb (Js.truthy (Js.trim text))
  then Alert (Js.lit "Message cannot be empty")
  else Emit (mkPayload senderId (Js.trim text)).

(** *** Further notions used in the statements *)

(** The roster the clients saw last, if one was ever broadcast. *)
Definition last_roster (l : list Effect) : option (list OnlineUser) :=
  fold_left (fun seen e =>
               match e with
               | IoEmit (usersOnline users) => Some users
               | _ => seen
               end) l None.

(** The connection of the latest accepted registration of [uid]. *)
Definition last_registration (uid : Js.str) (es : list Event)
  : option Js.str :=
  fold_left (fun latest e =>
               match e with
               | NewUser sid u =>
                   if invalidUserId u then latest
                   else if Js.eqb u uid then Some sid else latest
               | _ => latest
               end) es None.

(** The documents that the chat messages broadcast in [l] stand for. *)
Fixpoint broadcast_docs (l : list Effect) : list Doc :=
  match l with
  | [] => []
  | IoEmit (newMessage p) :: r =>
      match id p with
      | Some i => mkDoc i (message p) :: broadcast_docs r
      | None => broadcast_docs r
      end
  | _ :: r => broadcast_docs r
  end.

(** A private event is the notice of a failed send. *)
Definition is_failure_notice (ev : ServerEvent) : Prop :=
  exists t, ev = newMessage (systemError t).

(** Neither the first nor the last code unit is white space. *)
Definition trimmed (s : Js.str) : Prop :=
  Js.trimStart s = s /\ Js.trimStart (rev s) = rev s.

(* ===================================================================== *)
(** ** Strings *)
(* ===================================================================== *)

Lemma Js_eqb_eq (a b : Js.str) : Js.eqb a b = true <-> a = b.
Proof.
  revert b; induction a as [|x a IH]; intros [|y b]; simpl;
    try (split; (reflexivity || discriminate)).
  rewrite andb_true_iff, N.eqb_eq, IH.
  split; [intros [-> ->]; reflexivity | intros H; inversion H; auto].
Qed.

Lemma Js_eqb_refl (a : Js.str) : Js.eqb a a = true.
Proof. apply Js_eqb_eq; reflexivity. Qed.

Lemma Js_eqb_neq (a b : Js.str) : Js.eqb a b = false <-> a <> b.
Proof.
  rewrite <- Js_eqb_eq. destruct (Js.eqb a b); split; congruence.
Qed.

Lemma trimStart_blank (s : Js.str) :
  Js.trimStart s = [] <-> whitespaceOnly s = true.
Proof.
  induction s as [|c s IH]; simpl; [tauto|].
  destruct (Js.isWhiteSpace c); simpl; [exact IH|].
  split; discriminate.
Qed.

Lemma trimStart_head (s : Js.str) c r :
  Js.trimStart s = c :: r -> Js.isWhiteSpace c = false.
Proof.
  induction s as [|d s IH]; simpl; [discriminate|].
  destruct (Js.isWhiteSpace d) eqn:E; [exact IH|].
  intros H; inversion H; subst; exact E.
Qed.

Lemma whitespaceOnly_rev (s : Js.str) :
  whitespaceOnly (rev s) = whitespaceOnly s.
Proof.
  unfold whitespaceOnly.
  induction s as [|c s IH]; simpl; [reflexivity|].
  rewrite forallb_app, IH; simpl.
  rewrite andb_true_r; apply andb_comm.
Qed.

(** [trim] leaves nothing exactly when the string is white space only. *)
Lemma trim_blank (s : Js.str) : Js.trim s = [] <-> whitespaceOnly s = true.
Proof.
  unfold Js.trim, Js.trimEnd. split.
  - intros H.
    assert (H1 : Js.trimStart (rev (Js.trimStart s)) = []).
    { destruct (Js.trimStart (rev (Js.trimStart s))) as [|c r];
        [reflexivity|].
      simpl in H. apply app_eq_nil in H. destruct H; discriminate. }
    apply trimStart_blank in H1. rewrite whitespaceOnly_rev in H1.
    destruct (Js.trimStart s) as [|c r] eqn:E.
    + apply trimStart_blank; exact E.
    + apply trimStart_head in E. simpl in H1. rewrite E in H1. discriminate.
  - intros H. apply trimStart_blank in H. rewrite H. reflexivity.
Qed.

Lemma invalidUserId_blank (uid : Js.str) :
  invalidUserId uid = whitespaceOnly uid.
Proof.
  unfold invalidUserId.
  destruct (whitespaceOnly uid) eqn:E.
  - apply trim_blank in E. rewrite E. simpl. apply orb_true_r.
  - destruct uid as [|c r]; [discriminate|]. simpl.
    apply Js_eqb_neq. intros H. apply trim_blank in H. congruence.
Qed.

(** *** Concrete values *)

Example trim_padded : Js.trim (Js.lit "  a b  ") = Js.lit "a b".
Proof. reflexivity. Qed.

Example trim_ideographic_space : Js.trim [12288; 9; 160]%N = [].
Proof. reflexivity. Qed.

Example parseInt_decimal : Js.parseInt (Js.lit " 42px") = Js.Int 42.
Proof. reflexivity. Qed.

Example parseInt_hex : Js.parseInt (Js.lit "0x1F") = Js.Int 31.
Proof. reflexivity. Qed.

Example parseInt_negative : Js.parseInt (Js.lit "-7") = Js.Int (-7).
Proof. reflexivity. Qed.

Example parseInt_text : Js.parseInt (Js.lit "many") = Js.NaN.
Proof. reflexivity. Qed.

Example parseInt_beyond_safe :
  Js.parseInt (Js.lit "9007199254740992") = Js.Unsafe.
Proof. reflexivity. Qed.

(** A limit of zero is left out of the query. *)
Example getAllMessages_limit_zero :
  fst (getAllMessages (Some 0) (boot 50 [Sample.old]))
  = Returned [mkStored (doc_data Sample.old) (Some (doc_id Sample.old))].
Proof. reflexivity. Qed.

Example requestedLimit_absent : requestedLimit None = Js.Int 100.
Proof. reflexivity. Qed.

Example requestedLimit_given :
  requestedLimit (Some (Js.lit "25")) = Js.Int 25.
Proof. reflexivity. Qed.

(** Two users register, one sends "hi", then leaves. *)
Example two_users_chat :
  effects
    (run [NewUser Sample.X Sample.alice; NewUser Sample.Y Sample.bob;
          SendMessage Sample.X Sample.hi Sample.accepted;
          Disconnect Sample.X]
         (boot 50 []))
  = [IoEmit (usersOnline [mkOnlineUser Sample.X Sample.alice]);
     IoEmit (usersOnline [mkOnlineUser Sample.X Sample.alice;
                          mkOnlineUser Sample.Y Sample.bob]);
     DbAdd (mkMessage Sample.alice (Js.lit "hi") 50) (Some (Js.lit "doc-1"));
     IoEmit (newMessage
               (mkStored (mkMessage Sample.alice (Js.lit "hi") 50)
                         (Some (Js.lit "doc-1"))));
     IoEmit (usersOnline [mkOnlineUser Sample.Y Sample.bob])].
Proof. reflexivity. Qed.

(** A user registers from a second connection; the first one closes. *)
Example second_tab_then_first_closes :
  registry_after [NewUser Sample.X Sample.alice; NewUser Sample.Y Sample.alice;
                  Disconnect Sample.X] 0 []
  = [mkOnlineUser Sample.Y Sample.alice].
Proof. reflexivity. Qed.

(** A connection listed under two users loses both entries when it
    closes. *)
Example disconnect_listed_twice :
  registry_after [NewUser Sample.X Sample.alice; NewUser Sample.X Sample.bob;
                  Disconnect Sample.X] 0 []
  = [].
Proof. reflexivity. Qed.

(* ===================================================================== *)
(** ** What each handler does, as one equation *)
(* ===================================================================== *)

Lemma newUser_exec (sid uid : Js.str) (s : Server) :
  exec (newUser sid uid) s =
  if invalidUserId uid then s
  else
    let users := registered sid uid (onlineUsers s) in
    mkServer users (clock s) (collection s)
             (effects s ++ [IoEmit (usersOnline users)]).
Proof.
  unfold exec, newUser, registered, try_catch, bind.
  destruct (invalidUserId uid); [reflexivity|].
  simpl.
  destruct (find (fun user => Js.eqb (userId user) uid) (onlineUsers s));
    reflexivity.
Qed.

Lemma disconnect_exec (sid : Js.str) (s : Server) :
  exec (disconnect sid) s =
  let users := removed sid (onlineUsers s) in
  mkServer users (clock s) (collection s)
           (effects s ++ [IoEmit (usersOnline users)]).
Proof.
  unfold exec, disconnect, removed, bind. simpl.
  destruct (find (fun user => Js.eqb (socketId user) sid) (onlineUsers s));
    reflexivity.
Qed.

Lemma sendMessage_rejected (sid : Js.str) (payload : SendMessagePayload)
    (reply : AddReply) (s : Server) :
  payload_senderId payload = [] \/ payload_text payload = [] ->
  exec (sendMessage sid payload reply) s = s.
Proof.
  unfold exec, sendMessage, try_catch.
  intros [H | H]; rewrite H; simpl; [reflexivity|].
  rewrite orb_true_r. reflexivity.
Qed.

Lemma sendMessage_stored (sid : Js.str) (payload : SendMessagePayload)
    (reply : AddReply) (i : Js.str) (s : Server) :
  payload_senderId payload <> [] ->
  payload_text payload <> [] ->
  assigned reply = Some i ->
  exec (sendMessage sid payload reply) s =
  let m := mkMessage (payload_senderId payload) (payload_text payload)
                     (clock s) in
  mkServer (onlineUsers s) (clock s + Z.of_N (latency reply))
           (collection s ++ [mkDoc i m])
           ((effects s ++ [DbAdd m (Some i)])
              ++ [IoEmit (newMessage (mkStored m (Some i)))]).
Proof.
  intros Hs Ht Hi.
  unfold exec, sendMessage, try_catch, bind, db_add.
  destruct (payload_senderId payload) as [|a x]; [congruence|].
  destruct (payload_text payload) as [|b y]; [congruence|].
  simpl. rewrite Hi. reflexivity.
Qed.

Lemma sendMessage_failed (sid : Js.str) (payload : SendMessagePayload)
    (reply : AddReply) (s : Server) :
  payload_senderId payload <> [] ->
  payload_text payload <> [] ->
  assigned reply = None ->
  exec (sendMessage sid payload reply) s =
  let m := mkMessage (payload_senderId payload) (payload_text payload)
                     (clock s) in
  let t := clock s + Z.of_N (latency reply) in
  mkServer (onlineUsers s) t (collection s)
           ((effects s ++ [DbAdd m None])
              ++ [SocketEmit sid (newMessage (systemError t))]).
Proof.
  intros Hs Ht Hi.
  unfold exec, sendMessage, try_catch, bind, db_add.
  destruct (payload_senderId payload) as [|a x]; [congruence|].
  destruct (payload_text payload) as [|b y]; [congruence|].
  simpl. rewrite Hi. reflexivity.
Qed.

(** The three ways a [sendMessage] can go. *)
Lemma sendMessage_cases (sid : Js.str) (payload : SendMessagePayload)
    (reply : AddReply) :
  (payload_senderId payload = [] \/ payload_text payload = [])
  \/ (payload_senderId payload <> [] /\ payload_text payload <> []
      /\ exists i, assigned reply = Some i)
  \/ (payload_senderId payload <> [] /\ payload_text payload <> []
      /\ assigned reply = None).
Proof.
  destruct (payload_senderId payload) as [|a x]; [left; left; reflexivity|].
  destruct (payload_text payload) as [|b y]; [left; right; reflexivity|].
  right. destruct (assigned reply) as [i|].
  - left. repeat split; try discriminate. exists i; reflexivity.
  - right. repeat split; discriminate.
Qed.

Lemma getApiMessages_exec (param : option Js.str) (s : Server) :
  exec (getApiMessages param) s =
  mkServer (onlineUsers s) (clock s) (collection s)
    (effects s ++
     [match Firestore.recent (requestedLimit param) (collection s) with
      | Some snapshot => HttpJson 200 (MessagesBody (rev (map stored snapshot)))
      | None => HttpJson 500 FailureBody
      end]).
Proof.
  unfold exec, getApiMessages, try_catch, bind, db_recent.
  destruct (Firestore.recent (requestedLimit param) (collection s));
    reflexivity.
Qed.

(** *** The registry along a run *)

Lemma step_registry (s : Server) (e : Event) :
  onlineUsers (step s e) = registry_step (onlineUsers s) e.
Proof.
  unfold step. destruct e as [sid|sid uid|sid payload reply|sid| | |param|d];
    simpl; try reflexivity.
  - rewrite newUser_exec. destruct (invalidUserId uid); reflexivity.
  - destruct (sendMessage_cases sid payload reply)
      as [H | [(Hs & Ht & i & Hi) | (Hs & Ht & Hi)]].
    + rewrite sendMessage_rejected by exact H. reflexivity.
    + rewrite (sendMessage_stored sid payload reply i) by assumption.
      reflexivity.
    + rewrite sendMessage_failed by assumption. reflexivity.
  - rewrite disconnect_exec. reflexivity.
  - rewrite getApiMessages_exec. reflexivity.
Qed.

Lemma run_snoc (es : list Event) (e : Event) (s : Server) :
  run (es ++ [e]) s = step (run es s) e.
Proof. unfold run. rewrite fold_left_app. reflexivity. Qed.

Lemma run_registry (es : list Event) (s : Server) :
  onlineUsers (run es s) = fold_left registry_step es (onlineUsers s).
Proof.
  revert s; induction es as [|e es IH]; intros s; simpl; [reflexivity|].
  unfold run in IH. rewrite IH, step_registry. reflexivity.
Qed.

(* ===================================================================== *)
(** ** The presence registry *)
(* ===================================================================== *)

Section Registry.

Variables sid uid : Js.str.

Lemma find_user_none (users : list OnlineUser) :
  find (fun user => Js.eqb (userId user) uid) users = None -> ~ In uid (map userId users).
Proof.
  intros H Hin. apply in_map_iff in Hin. destruct Hin as (u & Hu & Hin).
  apply (find_none _ _ H) in Hin. simpl in Hin.
  rewrite Hu, Js_eqb_refl in Hin. discriminate.
Qed.

Lemma find_user_some (users : list OnlineUser) :
  In uid (map userId users) -> exists u, find (fun user => Js.eqb (userId user) uid) users = Some u.
Proof.
  intros Hin.
  destruct (find (fun user => Js.eqb (userId user) uid) users) as [u|] eqn:E;
    [eauto|].
  exfalso. exact (find_user_none _ E Hin).
Qed.

(** A reconnect rewrites connections only: the users and their order stay. *)
Lemma reconnect_userIds (users : list OnlineUser) :
  map userId
    (map (fun user =>
            if Js.eqb (userId user) uid
            then mkOnlineUser sid (userId user)
            else user) users)
  = map userId users.
Proof.
  rewrite map_map. apply map_ext. intros u.
  destruct (Js.eqb (userId u) uid); reflexivity.
Qed.

Lemma registered_known (users : list OnlineUser) :
  In uid (map userId users) ->
  registered sid uid users =
  map (fun user =>
         if Js.eqb (userId user) uid then mkOnlineUser sid uid else user)
      users.
Proof.
  intros Hin. unfold registered.
  destruct (find_user_some _ Hin) as (u & ->).
  apply map_ext. intros v.
  destruct (Js.eqb (userId v) uid) eqn:E; [|reflexivity].
  apply Js_eqb_eq in E. rewrite E. reflexivity.
Qed.

Lemma registered_fresh (users : list OnlineUser) :
  ~ In uid (map userId users) ->
  registered sid uid users = users ++ [mkOnlineUser sid uid].
Proof.
  intros Hout. unfold registered.
  destruct (find (fun user => Js.eqb (userId user) uid) users) eqn:E;
    [|reflexivity].
  exfalso. apply Hout. apply find_some in E. destruct E as [Hin E].
  apply Js_eqb_eq in E. rewrite <- E. apply in_map. exact Hin.
Qed.

Lemma registered_distinct (users : list OnlineUser) :
  NoDup (map userId users) -> NoDup (map userId (registered sid uid users)).
Proof.
  intros H. unfold registered.
  destruct (find (fun user => Js.eqb (userId user) uid) users) eqn:E.
  - rewrite reconnect_userIds. exact H.
  - rewrite map_app. simpl. apply NoDup_app.
    + exact H.
    + constructor; [intros []|constructor].
    + intros x Hx [<- | []]. exact (find_user_none _ E Hx).
Qed.

Lemma removed_distinct {B} (f : OnlineUser -> B) (users : list OnlineUser) :
  NoDup (map f users) -> NoDup (map f (removed sid users)).
Proof.
  unfold removed. induction users as [|u users IH]; simpl; intros H;
    [constructor|].
  inversion H as [|? ? Hout Hrest]; subst.
  destruct (negb (Js.eqb (socketId u) sid)); simpl; [|auto].
  constructor; [|auto].
  intros Hin. apply Hout. apply in_map_iff in Hin.
  destruct Hin as (v & Hv & Hin). apply filter_In in Hin.
  rewrite <- Hv. apply in_map. tauto.
Qed.

End Registry.

Lemma registry_step_distinct (users : list OnlineUser) (e : Event) :
  NoDup (map userId users) -> NoDup (map userId (registry_step users e)).
Proof.
  intros H. destruct e; simpl; auto.
  - destruct (invalidUserId uid); [exact H|].
    apply registered_distinct; exact H.
  - apply removed_distinct; exact H.
Qed.

Lemma registry_fold_distinct (es : list Event) (users : list OnlineUser) :
  NoDup (map userId users) ->
  NoDup (map userId (fold_left registry_step es users)).
Proof.
  revert users; induction es as [|e es IH]; intros users H; simpl;
    [exact H|].
  apply IH, registry_step_distinct, H.
Qed.

Lemma registry_step_within regs (users : list OnlineUser) (e : Event) :
  within regs users ->
  incl (registrations [e]) regs ->
  within regs (registry_step users e).
Proof.
  intros Hw Hin. destruct e; simpl; auto.
  - simpl in Hin. destruct (invalidUserId uid); [exact Hw|].
    assert (Hnew : In (sid, uid) regs) by (apply Hin; left; reflexivity).
    unfold registered.
    destruct (find (fun user => Js.eqb (userId user) uid) users).
    + intros u Hu. apply in_map_iff in Hu. destruct Hu as (v & Hv & Hu).
      destruct (Js.eqb (userId v) uid) eqn:E; subst u; simpl.
      * apply Js_eqb_eq in E. rewrite E. exact Hnew.
      * apply Hw, Hu.
    + intros u Hu. apply in_app_or in Hu. destruct Hu as [Hu | [<- | []]].
      * apply Hw, Hu.
      * exact Hnew.
  - intros u Hu. apply filter_In in Hu. apply Hw, Hu.
Qed.

Lemma registry_fold_within regs (es : list Event) (users : list OnlineUser) :
  within regs users ->
  incl (registrations es) regs ->
  within regs (fold_left registry_step es users).
Proof.
  revert users; induction es as [|e es IH]; intros users Hw Hin; simpl;
    [exact Hw|].
  change (e :: es) with ([e] ++ es) in Hin.
  unfold registrations in Hin. rewrite flat_map_app in Hin.
  apply IH.
  - apply registry_step_within; [exact Hw|].
    intros x Hx. apply Hin, in_or_app. left. exact Hx.
  - intros x Hx. apply Hin, in_or_app. right. exact Hx.
Qed.

Lemma one_identity_functional (es : list Event) :
  one_identity_per_socket es = true ->
  forall a b, In a (registrations es) -> In b (registrations es) ->
              fst a = fst b -> snd a = snd b.
Proof.
  unfold one_identity_per_socket. intros H a b Ha Hb Hab.
  rewrite forallb_forall in H. specialize (H a Ha).
  rewrite forallb_forall in H. specialize (H b Hb).
  rewrite Hab, Js_eqb_refl in H. simpl in H. apply Js_eqb_eq, H.
Qed.

Lemma NoDup_map_transfer {A B C} (f : A -> B) (g : A -> C) (l : list A) :
  NoDup (map f l) ->
  (forall x y, In x l -> In y l -> g x = g y -> f x = f y) ->
  NoDup (map g l).
Proof.
  induction l as [|a l IH]; simpl; intros H Hfg; [constructor|].
  inversion H as [|? ? Hout Hrest]; subst. constructor.
  - intros Hin. apply Hout. apply in_map_iff in Hin.
    destruct Hin as (y & Hy & Hin).
    rewrite <- (Hfg y a); auto using in_map.
  - apply IH; auto.
Qed.

Lemma registrations_valid (es : list Event) (a : Js.str * Js.str) :
  In a (registrations es) -> invalidUserId (snd a) = false.
Proof.
  unfold registrations. intros H. apply in_flat_map in H.
  destruct H as (e & _ & H). destruct e; try contradiction.
  destruct (invalidUserId uid) eqn:E; [contradiction|].
  destruct H as [<- | []]. exact E.
Qed.

Lemma registry_after_within (es : list Event) (t0 : Z) (docs : list Doc) :
  within (registrations es) (registry_after es t0 docs).
Proof.
  unfold registry_after. rewrite run_registry.
  apply registry_fold_within; [intros u []|apply incl_refl].
Qed.

(** Only identifiers that passed validation are ever in the registry. *)
Lemma registry_after_valid (es : list Event) (t0 : Z) (docs : list Doc) uid :
  In uid (map userId (registry_after es t0 docs)) ->
  invalidUserId uid = false.
Proof.
  intros H. apply in_map_iff in H. destruct H as (u & <- & H).
  apply registry_after_within in H.
  exact (registrations_valid es _ H).
Qed.

(** C1, as the specification states it, fails: a connection that registers
    as "alice" and then as "bob" is listed twice, once under each identifier;
    [newUser] compares user identifiers only. *)
Lemma registry_socket_listed_twice :
  registry_after [NewUser Sample.X Sample.alice; NewUser Sample.X Sample.bob]
                 0 []
  = [mkOnlineUser Sample.X Sample.alice; mkOnlineUser Sample.X Sample.bob]
  /\ ~ (NoDup (map userId
                 (registry_after [NewUser Sample.X Sample.alice;
                                  NewUser Sample.X Sample.bob] 0 []))
        /\ NoDup (map socketId
                    (registry_after [NewUser Sample.X Sample.alice;
                                     NewUser Sample.X Sample.bob] 0 []))).
Proof.
  split; [reflexivity|].
  intros [_ H]. vm_compute in H.
  inversion H as [|? ? Hout _]; subst. apply Hout. left. reflexivity.
Qed.

(** C1 (amended).  For every sequence of events applied to the server as
    booted (empty registry), the registry never holds two entries with the
    same [userId]; and it never holds two entries with the same [socketId]
    as long as no connection registered under two different user
    identifiers. *)
Theorem registry_entries_distinct
    (es : list Event) (t0 : Z) (docs : list Doc) :
  NoDup (map userId (registry_after es t0 docs))
  /\ (one_identity_per_socket es = true ->
      NoDup (map socketId (registry_after es t0 docs))).
Proof.
  assert (Hu : NoDup (map userId (registry_after es t0 docs))).
  { unfold registry_after. rewrite run_registry.
    apply registry_fold_distinct. constructor. }
  split; [exact Hu|]. intros Hone.
  apply (NoDup_map_transfer userId socketId _ Hu).
  intros x y Hx Hy Hxy.
  apply registry_after_within in Hx, Hy.
  exact (one_identity_functional es Hone _ _ Hx Hy Hxy).
Qed.

Lemma registry_entries_distinct_witness :
  one_identity_per_socket Sample.session = true
  /\ NoDup (map userId (registry_after Sample.session 0 [Sample.old]))
  /\ NoDup (map socketId (registry_after Sample.session 0 [Sample.old])).
Proof.
  split; [reflexivity|].
  destruct (registry_entries_distinct Sample.session 0 [Sample.old])
    as [Hu Hs].
  split; [exact Hu|apply Hs; reflexivity].
Defined.



(** C6.  A [newUser] event whose identifier is empty or made of white space
    only leaves the whole server state as it was: the registry is unchanged
    and nothing is emitted, so no roster is broadcast. *)
Theorem newUser_blank_ignored (sid uid : Js.str) (s : Server) :
  whitespaceOnly uid = true ->
  exec (newUser sid uid) s = s.
Proof.
  intros H. rewrite newUser_exec, invalidUserId_blank, H. reflexivity.
Qed.

Lemma newUser_blank_ignored_witness :
  whitespaceOnly (Js.lit "   ") = true
  /\ exec (newUser Sample.X (Js.lit "   ")) (run Sample.session (boot 0 []))
     = run Sample.session (boot 0 []).
Proof.
  split; [reflexivity|].
  apply (newUser_blank_ignored Sample.X (Js.lit "   ")). reflexivity.
Defined.

Lemma removed_absent (sid : Js.str) (users : list OnlineUser) :
  ~ In sid (map socketId users) -> removed sid users = users.
Proof.
  unfold removed. induction users as [|u users IH]; simpl; intros H;
    [reflexivity|].
  destruct (Js.eqb (socketId u) sid) eqn:E; simpl.
  - exfalso. apply H. left. apply Js_eqb_eq, E.
  - f_equal. apply IH. tauto.
Qed.

Lemma removed_In (sid : Js.str) (users : list OnlineUser) (u : OnlineUser) :
  In u (removed sid users) <-> In u users /\ socketId u <> sid.
Proof.
  unfold removed. rewrite filter_In, negb_true_iff, Js_eqb_neq. tauto.
Qed.

Lemma registered_In (sid uid : Js.str) (users : list OnlineUser)
    (u : OnlineUser) :
  In u (registered sid uid users) ->
  u = mkOnlineUser sid uid \/ (In u users /\ userId u <> uid).
Proof.
  unfold registered.
  destruct (find (fun user => Js.eqb (userId user) uid) users) eqn:F.
  - intros H. apply in_map_iff in H. destruct H as (v & Hv & H).
    destruct (Js.eqb (userId v) uid) eqn:E; subst u.
    + left. apply Js_eqb_eq in E. rewrite E. reflexivity.
    + right. split; [exact H|]. apply Js_eqb_neq, E.
  - intros H. apply in_app_or in H. destruct H as [H | [<- | []]].
    + destruct (Js.eqb (userId u) uid) eqn:E.
      * left. apply Js_eqb_eq in E. exfalso.
        apply (find_user_none uid users F).
        rewrite <- E. apply in_map. exact H.
      * right. split; [exact H|]. apply Js_eqb_neq, E.
    + left. reflexivity.
Qed.

Lemma registered_has (sid uid : Js.str) (users : list OnlineUser) :
  In (mkOnlineUser sid uid) (registered sid uid users).
Proof.
  destruct (in_dec (list_eq_dec N.eq_dec) uid (map userId users))
    as [Hin | Hout].
  - rewrite registered_known by exact Hin.
    apply in_map_iff in Hin. destruct Hin as (u & Hu & Hin).
    apply in_map_iff. exists u. split; [|exact Hin].
    rewrite Hu, Js_eqb_refl. reflexivity.
  - rewrite registered_fresh by exact Hout.
    apply in_or_app. right. left. reflexivity.
Qed.



(** C9.  [sendMessage] leaves the registry exactly as it found it, whether
    the payload is rejected, stored or refused by the store; of all the
    handlers only [newUser] and [disconnect] can change it. *)
Theorem sendMessage_frames_registry
    (sid : Js.str) (payload : SendMessagePayload) (reply : AddReply)
    (s : Server) (e : Event) :
  onlineUsers (exec (sendMessage sid payload reply) s) = onlineUsers s
  /\ (registry_writer e = false -> onlineUsers (step s e) = onlineUsers s).
Proof.
  split.
  - exact (step_registry s (SendMessage sid payload reply)).
  - intros H. rewrite step_registry.
    destruct e; simpl in *; congruence.
Qed.

Lemma sendMessage_frames_registry_witness :
  registry_writer (GetApiMessages None) = false
  /\ onlineUsers (step (run Sample.session (boot 0 [])) (GetApiMessages None))
     = onlineUsers (run Sample.session (boot 0 [])).
Proof.
  split; [reflexivity|].
  apply (sendMessage_frames_registry Sample.X Sample.hi Sample.accepted).
  reflexivity.
Defined.

(** C10.  Right after the disconnect handler has run for connection [sid],
    no entry of the registry carries [sid], however many did before. *)
Theorem disconnect_leaves_no_entry (sid : Js.str) (s : Server) :
  Forall (fun u => socketId u <> sid)
         (onlineUsers (exec (disconnect sid) s)).
Proof.
  rewrite disconnect_exec. simpl. apply Forall_forall.
  intros u Hu. apply removed_In in Hu. tauto.
Qed.

(* ===================================================================== *)
(** ** Relaying messages *)
(* ===================================================================== *)

Lemma broadcasts_app (l r : list Effect) :
  broadcasts (l ++ r) = broadcasts l ++ broadcasts r.
Proof.
  induction l as [|[] l IH]; simpl; rewrite ?IH; reflexivity.
Qed.

Lemma privates_app (l r : list Effect) :
  privates (l ++ r) = privates l ++ privates r.
Proof.
  induction l as [|[] l IH]; simpl; rewrite ?IH; reflexivity.
Qed.

(** A handler only appends to the log, and a chat message it broadcasts
    comes second, right after the accepted write of that message. *)
Lemma step_effects (s : Server) (e : Event) :
  exists new,
    effects (step s e) = effects s ++ new
    /\ forall n p,
         nth_error new n = Some (IoEmit (newMessage p)) ->
         n = 1%nat
         /\ exists i, id p = Some i
                      /\ nth_error new 0 = Some (DbAdd (message p) (Some i)).
Proof.
  unfold step.
  destruct e as [sid|sid uid|sid payload reply|sid| | |param|d]; simpl.
  - exists []. split; [symmetry; apply app_nil_r|].
    intros [|n] p H; discriminate.
  - rewrite newUser_exec. destruct (invalidUserId uid).
    + exists []. split; [symmetry; apply app_nil_r|].
      intros [|n] p H; discriminate.
    + eexists. split; [reflexivity|].
      intros [|[|n]] p H; discriminate.
  - destruct (sendMessage_cases sid payload reply)
      as [H | [(Hs & Ht & i & Hi) | (Hs & Ht & Hi)]].
    + rewrite sendMessage_rejected by exact H.
      exists []. split; [symmetry; apply app_nil_r|].
      intros [|n] p H'; discriminate.
    + rewrite (sendMessage_stored sid payload reply i) by assumption.
      simpl. rewrite <- app_assoc. eexists. split; [reflexivity|].
      intros [|[|[|n]]] p H; try discriminate.
      simpl in H. inversion H; subst. split; [reflexivity|].
      exists i. split; reflexivity.
    + rewrite sendMessage_failed by assumption.
      simpl. rewrite <- app_assoc. eexists. split; [reflexivity|].
      intros [|[|[|n]]] p H; discriminate.
  - rewrite disconnect_exec. eexists. split; [reflexivity|].
    intros [|[|n]] p H; discriminate.
  - eexists. split; [reflexivity|]. intros [|[|n]] p H; discriminate.
  - eexists. split; [reflexivity|]. intros [|[|n]] p H; discriminate.
  - rewrite getApiMessages_exec. eexists. split; [reflexivity|].
    intros [|[|n]] p H; simpl in H; try discriminate.
    destruct (Firestore.recent (requestedLimit param) (collection s));
      discriminate.
  - exists []. split; [symmetry; apply app_nil_r|].
    intros [|n] p H; discriminate.
Qed.

Lemma step_persisted_before_broadcast (s : Server) (e : Event) :
  persisted_before_broadcast (effects s) ->
  persisted_before_broadcast (effects (step s e)).
Proof.
  intros IH n p H.
  destruct (step_effects s e) as (new & E & Hnew). rewrite E in *.
  destruct (Nat.lt_ge_cases n (List.length (effects s))) as [Hlt | Hge].
  - rewrite nth_error_app1 in H by exact Hlt.
    destruct (IH n p H) as (i & k & Hi & Hk & Hw).
    exists i, k. repeat split; try assumption.
    rewrite nth_error_app1 by lia. exact Hw.
  - rewrite nth_error_app2 in H by exact Hge.
    destruct (Hnew _ p H) as (Hn & i & Hi & Hw).
    exists i, (List.length (effects s)). repeat split; [exact Hi|lia|].
    rewrite nth_error_app2, Nat.sub_diag by lia. exact Hw.
Qed.

Lemma run_persisted_before_broadcast
    (es : list Event) (t0 : Z) (docs : list Doc) :
  persisted_before_broadcast (effects (run es (boot t0 docs))).
Proof.
  induction es as [|e es IH] using rev_ind.
  - intros [|n] p H; discriminate.
  - rewrite run_snoc. apply step_persisted_before_broadcast, IH.
Qed.

(** C2.  A [sendMessage] with non-empty sender and text whose write is
    accepted under identifier [i] appends exactly two effects: the write of
    the message, stamped with the clock read when the handler started, and
    then one broadcast to all of that same message carrying [i]; nothing is
    sent privately.  The document is in the collection afterwards, and the
    stamp lies between the start and the end of the handler.  Over any run
    of the server, every chat message broadcast was accepted by the store
    earlier, under the identifier it carries. *)
Theorem sendMessage_persists_then_broadcasts
    (sid : Js.str) (payload : SendMessagePayload) (reply : AddReply)
    (i : Js.str) (s : Server)
    (es : list Event) (t0 : Z) (docs : list Doc) :
  payload_senderId payload <> [] ->
  payload_text payload <> [] ->
  assigned reply = Some i ->
  let s' := exec (sendMessage sid payload reply) s in
  let m := mkMessage (payload_senderId payload) (payload_text payload)
                     (clock s) in
  effects s' = effects s
                 ++ [DbAdd m (Some i);
                     IoEmit (newMessage (mkStored m (Some i)))]
  /\ broadcasts (effects s')
     = broadcasts (effects s) ++ [newMessage (mkStored m (Some i))]
  /\ privates (effects s') = privates (effects s)
  /\ collection s' = collection s ++ [mkDoc i m]
  /\ clock s <= timestamp m <= clock s'
  /\ persisted_before_broadcast (effects (run es (boot t0 docs))).
Proof.
  intros Hs Ht Hi s' m. unfold s'.
  rewrite (sendMessage_stored sid payload reply i) by assumption.
  simpl. fold m. rewrite <- app_assoc. simpl.
  split; [reflexivity|].
  split; [rewrite broadcasts_app; reflexivity|].
  split; [rewrite privates_app; simpl; apply app_nil_r|].
  split; [reflexivity|].
  split; [lia|].
  apply run_persisted_before_broadcast.
Qed.

Lemma sendMessage_persists_then_broadcasts_witness :
  effects (exec (sendMessage Sample.X Sample.hi Sample.accepted) (boot 50 []))
  = [DbAdd (mkMessage Sample.alice (Js.lit "hi") 50) (Some (Js.lit "doc-1"));
     IoEmit (newMessage
               (mkStored (mkMessage Sample.alice (Js.lit "hi") 50)
                         (Some (Js.lit "doc-1"))))].
Proof.
  destruct (sendMessage_persists_then_broadcasts
              Sample.X Sample.hi Sample.accepted (Js.lit "doc-1")
              (boot 50 []) Sample.session 0 []) as [E _].
  - vm_compute. discriminate.
  - vm_compute. discriminate.
  - reflexivity.
  - exact E.
Defined.

(** C3.  A [sendMessage] with non-empty sender and text whose write is
    refused broadcasts nothing and sends exactly one event, privately to the
    connection it came from: a message from "system" with the fixed text,
    stamped with the clock read when the failure is handled, without [id].
    Nothing is stored. *)
Theorem sendMessage_failure_is_private
    (sid : Js.str) (payload : SendMessagePayload) (reply : AddReply)
    (s : Server) :
  payload_senderId payload <> [] ->
  payload_text payload <> [] ->
  assigned reply = None ->
  let s' := exec (sendMessage sid payload reply) s in
  let notice :=
    newMessage
      (mkStored
         (mkMessage (Js.lit "system")
                    (Js.lit "Error sending message. Please try again.")
                    (clock s'))
         None) in
  broadcasts (effects s') = broadcasts (effects s)
  /\ privates (effects s') = privates (effects s) ++ [(sid, notice)]
  /\ collection s' = collection s
  /\ clock s <= clock s'
  /\ effects s'
     = effects s
         ++ [DbAdd (mkMessage (payload_senderId payload)
                              (payload_text payload) (clock s)) None;
             SocketEmit sid notice].
Proof.
  intros Hs Ht Hi s' notice. unfold notice, s'.
  rewrite sendMessage_failed by assumption.
  simpl. rewrite <- app_assoc. simpl.
  split; [rewrite broadcasts_app; simpl; apply app_nil_r|].
  split; [rewrite privates_app; reflexivity|].
  split; [reflexivity|].
  split; [lia|reflexivity].
Qed.

Lemma sendMessage_failure_is_private_witness :
  privates
    (effects (exec (sendMessage Sample.X Sample.hi Sample.refused)
                   (boot 50 [])))
  = [(Sample.X,
      newMessage
        (mkStored
           (mkMessage (Js.lit "system")
                      (Js.lit "Error sending message. Please try again.") 57)
           None))].
Proof.
  destruct (sendMessage_failure_is_private
              Sample.X Sample.hi Sample.refused (boot 50 []))
    as (_ & E & _).
  - vm_compute. discriminate.
  - vm_compute. discriminate.
  - reflexivity.
  - exact E.
Defined.

(** C4, as the specification states it, fails: a text of three spaces is
    empty after trimming, yet the handler, which does not trim, stores it
    and broadcasts it. *)
Lemma sendMessage_blank_text_relayed :
  Js.trim (payload_text Sample.blank) = []
  /\ collection
       (exec (sendMessage Sample.X Sample.blank Sample.accepted) (boot 50 []))
     = [mkDoc (Js.lit "doc-1") (mkMessage Sample.alice (Js.lit "   ") 50)]
  /\ broadcasts
       (effects
          (exec (sendMessage Sample.X Sample.blank Sample.accepted)
                (boot 50 [])))
     = [newMessage
          (mkStored (mkMessage Sample.alice (Js.lit "   ") 50)
                    (Some (Js.lit "doc-1")))].
Proof. repeat split. Qed.

(** C4 (amended).  A [sendMessage] whose text is the empty string leaves
    the whole server state as it was: nothing is stored and nothing is
    emitted, to anyone. *)
Theorem sendMessage_empty_text_dropped
    (sid : Js.str) (payload : SendMessagePayload) (reply : AddReply)
    (s : Server) :
  payload_text payload = [] ->
  exec (sendMessage sid payload reply) s = s.
Proof.
  intros H. apply sendMessage_rejected. right. exact H.
Qed.

Lemma sendMessage_empty_text_dropped_witness :
  exec (sendMessage Sample.X (mkPayload Sample.alice (Js.lit ""))
                    Sample.accepted)
       (run Sample.session (boot 0 []))
  = run Sample.session (boot 0 []).
Proof.
  apply (sendMessage_empty_text_dropped
           Sample.X (mkPayload Sample.alice (Js.lit "")) Sample.accepted).
  reflexivity.
Defined.

(* ===================================================================== *)
(** ** History retrieval *)
(* ===================================================================== *)

Section Sorting.

Context {A : Type}.

Lemma StronglySorted_snoc (R : A -> A -> Prop) (l : list A) (a : A) :
  StronglySorted R l -> Forall (fun x => R x a) l ->
  StronglySorted R (l ++ [a]).
Proof.
  induction 1 as [|x l Hl IH Hx]; simpl; intros Ha.
  - constructor; constructor.
  - inversion Ha; subst. constructor; [auto|].
    apply Forall_app. split; [exact Hx|]. constructor; [assumption|constructor].
Qed.

Lemma StronglySorted_rev (R : A -> A -> Prop) (l : list A) :
  StronglySorted R l -> StronglySorted (fun a b => R b a) (rev l).
Proof.
  induction 1 as [|x l Hl IH Hx]; simpl; [constructor|].
  apply StronglySorted_snoc; [exact IH|].
  apply Forall_rev. exact Hx.
Qed.

Lemma StronglySorted_split (R : A -> A -> Prop) (l r : list A) :
  StronglySorted R (l ++ r) ->
  StronglySorted R l /\ forall x y, In x l -> In y r -> R x y.
Proof.
  induction l as [|a l IH]; simpl; intros H.
  - split; [constructor|intros x y []].
  - apply StronglySorted_inv in H. destruct H as [H Ha].
    destruct (IH H) as [Hl Hlr]. apply Forall_app in Ha.
    destruct Ha as [Hal Har]. split; [constructor; assumption|].
    intros x y [<- | Hx] Hy; [|auto].
    rewrite Forall_forall in Har. auto.
Qed.

End Sorting.

Lemma StronglySorted_map {A B} (R : B -> B -> Prop) (f : A -> B)
    (l : list A) :
  StronglySorted (fun a b => R (f a) (f b)) l -> StronglySorted R (map f l).
Proof.
  induction 1 as [|x l Hl IH Hx]; simpl; constructor; [exact IH|].
  apply Forall_map. exact Hx.
Qed.

Lemma before_true (a b : Doc) :
  Firestore.before a b = true ->
  timestamp (doc_data b) <= timestamp (doc_data a).
Proof.
  unfold Firestore.before. rewrite orb_true_iff, andb_true_iff.
  rewrite Z.ltb_lt, Z.eqb_eq. lia.
Qed.

Lemma before_false (a b : Doc) :
  Firestore.before a b = false ->
  timestamp (doc_data a) <= timestamp (doc_data b).
Proof.
  unfold Firestore.before. rewrite orb_false_iff, Z.ltb_ge. tauto.
Qed.

Lemma insert_perm (d : Doc) (l : list Doc) :
  Permutation (Firestore.insert d l) (d :: l).
Proof.
  induction l as [|e l IH]; simpl; [reflexivity|].
  destruct (Firestore.before d e); [reflexivity|].
  rewrite IH. apply perm_swap.
Qed.

Lemma insert_newest_first (d : Doc) (l : list Doc) :
  newest_first l -> newest_first (Firestore.insert d l).
Proof.
  unfold newest_first.
  induction 1 as [|e l Hl IH He]; simpl.
  - constructor; constructor.
  - destruct (Firestore.before d e) eqn:E.
    + apply before_true in E. constructor.
      * constructor; assumption.
      * constructor; [exact E|].
        rewrite Forall_forall in *. intros x Hx. specialize (He x Hx). lia.
    + apply before_false in E. constructor; [exact IH|].
      rewrite Forall_forall in *. intros x Hx.
      apply (Permutation_in _ (insert_perm d l)) in Hx.
      destruct Hx as [<- | Hx]; [exact E|auto].
Qed.

Lemma orderBy_perm (l : list Doc) :
  Permutation (Firestore.orderByTimestampDesc l) l.
Proof.
  induction l as [|d l IH]; simpl; [reflexivity|].
  rewrite insert_perm. constructor. exact IH.
Qed.

Lemma orderBy_newest_first (l : list Doc) :
  newest_first (Firestore.orderByTimestampDesc l).
Proof.
  induction l as [|d l IH]; simpl; [constructor|].
  apply insert_newest_first, IH.
Qed.

(** The query, for a positive limit within the safe integers: it
    succeeds, and the snapshot holds the most recent documents, newest
    first. *)
Lemma recent_spec (n : Z) (docs : list Doc) :
  0 < n <= Js.MAX_SAFE_INTEGER ->
  exists snapshot,
    Firestore.recent (Js.Int n) docs = Some snapshot
    /\ newest_first snapshot
    /\ most_recent (Z.to_nat n) snapshot docs.
Proof.
  intros Hn. unfold Firestore.recent.
  destruct (Z.ltb_spec n 0) as [|_]; [lia|].
  destruct (Z.ltb_spec Js.MAX_SAFE_INTEGER n) as [|_]; [lia|].
  destruct (Z.eqb_spec n 0) as [|_]; [lia|]. simpl.
  set (sorted := Firestore.orderByTimestampDesc docs).
  exists (firstn (Z.to_nat n) sorted).
  assert (Hs : newest_first
                 (firstn (Z.to_nat n) sorted ++ skipn (Z.to_nat n) sorted)).
  { rewrite firstn_skipn. apply orderBy_newest_first. }
  apply StronglySorted_split in Hs. destruct Hs as [Hfirst Hrest].
  split; [reflexivity|]. split; [exact Hfirst|]. split.
  - rewrite length_firstn. unfold sorted.
    rewrite (Permutation_length (orderBy_perm docs)). reflexivity.
  - exists (skipn (Z.to_nat n) sorted). split.
    + rewrite firstn_skipn. apply orderBy_perm.
    + intros d o Hd Ho. exact (Hrest d o Hd Ho).
Qed.

(** What [getAllMessages] resolves to for a positive limit within the safe
    integers: at most that many messages, the most recent ones, oldest
    first. *)
Lemma getAllMessages_oldest_first (n : Z) (s : Server) :
  0 < n <= Js.MAX_SAFE_INTEGER ->
  exists snapshot,
    getAllMessages (Some n) s = (Returned (rev (map stored snapshot)), s)
    /\ most_recent (Z.to_nat n) snapshot (collection s)
    /\ ascending (rev (map stored snapshot))
    /\ (List.length (rev (map stored snapshot)) <= Z.to_nat n)%nat.
Proof.
  intros Hn.
  destruct (recent_spec n (collection s) Hn) as (snap & E & Hsorted & Hrec).
  exists snap. split; [|split; [exact Hrec|split]].
  - unfold getAllMessages, try_catch, bind, db_recent. rewrite E.
    unfold ret. do 3 f_equal. apply map_ext. intros [i [a b c]]. reflexivity.
  - unfold ascending.
    apply (StronglySorted_rev
             (fun a b : StoredMessage => timestamp b <= timestamp a)).
    apply StronglySorted_map with
      (R := fun a b : StoredMessage => timestamp b <= timestamp a).
    exact Hsorted.
  - rewrite length_rev, length_map. destruct Hrec as [-> _]. lia.
Qed.


(** The limit the route uses is never zero and never NaN. *)
Lemma requestedLimit_nonzero (param : option Js.str) :
  requestedLimit param <> Js.Int 0 /\ requestedLimit param <> Js.NaN.
Proof.
  unfold requestedLimit.
  destruct (match param with Some s => Js.parseInt s | None => Js.NaN end)
    as [|z|]; simpl; try (split; discriminate).
  destruct (Z.eqb_spec z 0); simpl; split; try discriminate.
  congruence.
Qed.

(** C8, on [GET /api/messages?limit=0] with one stored message.  The text
    "0" parses to the number 0, which is falsy, so the route falls back to
    100 and replies with the stored message: one message where the limit
    asked for none. *)
Theorem getApiMessages_limit_zero :
  Js.parseInt (Js.lit "0") = Js.Int 0
  /\ requestedLimit (Some (Js.lit "0")) = Js.Int 100
  /\ lastReply (exec (getApiMessages (Some (Js.lit "0")))
                     (boot 50 [Sample.old]))
     = Some (200, MessagesBody [stored Sample.old]).
Proof. repeat split. Qed.

(* ===================================================================== *)
(** ** Further properties of the handlers *)
(* ===================================================================== *)

(** Case analysis on the event handled, each handler replaced by its
    equation. *)
Ltac by_handler e :=
  unfold step;
  destruct e as [sid|sid uid|sid payload reply|sid| | |param|d]; simpl;
  [ idtac
  | rewrite newUser_exec; destruct (invalidUserId uid) eqn:?
  | destruct (sendMessage_cases sid payload reply)
      as [? | [(? & ? & ? & ?) | (? & ? & ?)]];
    [ rewrite sendMessage_rejected by assumption
    | erewrite sendMessage_stored by eassumption
    | rewrite sendMessage_failed by assumption ]
  | rewrite disconnect_exec
  | idtac
  | idtac
  | rewrite getApiMessages_exec
  | idtac ];
  cbv zeta; cbn [effects onlineUsers collection clock].

(** X1.  [sendMessage] drops the event, leaving the server state untouched,
    exactly when the sender or the text is the empty string. *)
Theorem sendMessage_dropped_iff
    (sid : Js.str) (payload : SendMessagePayload) (reply : AddReply)
    (s : Server) :
  exec (sendMessage sid payload reply) s = s
  <-> payload_senderId payload = [] \/ payload_text payload = [].
Proof.
  split; [|apply sendMessage_rejected].
  intros E.
  destruct (sendMessage_cases sid payload reply)
    as [H | [(Hs & Ht & i & Hi) | (Hs & Ht & Hi)]]; [exact H| |]; exfalso.
  - rewrite (sendMessage_stored sid payload reply i) in E by assumption.
    apply (f_equal (fun x => List.length (effects x))) in E. simpl in E.
    rewrite !length_app in E. simpl in E. lia.
  - rewrite sendMessage_failed in E by assumption.
    apply (f_equal (fun x => List.length (effects x))) in E. simpl in E.
    rewrite !length_app in E. simpl in E. lia.
Qed.

Lemma sendMessage_dropped_iff_witness :
  exec (sendMessage Sample.X (mkPayload (Js.lit "") (Js.lit "hi"))
                    Sample.accepted)
       (boot 50 [])
  = boot 50 [].
Proof.
  apply (proj2 (sendMessage_dropped_iff
                  Sample.X (mkPayload (Js.lit "") (Js.lit "hi"))
                  Sample.accepted (boot 50 []))).
  left. reflexivity.
Defined.

(** X2.  A [newUser] with an accepted identifier that is not listed yet
    adds one entry at the end of the roster, leaves the others as they
    were, and broadcasts the new roster once. *)
Theorem newUser_fresh_appends (sid uid : Js.str) (s : Server) :
  whitespaceOnly uid = false ->
  ~ In uid (map userId (onlineUsers s)) ->
  exec (newUser sid uid) s
  = mkServer (onlineUsers s ++ [mkOnlineUser sid uid]) (clock s)
             (collection s)
             (effects s
                ++ [IoEmit (usersOnline
                              (onlineUsers s ++ [mkOnlineUser sid uid]))]).
Proof.
  intros Hv Hout.
  rewrite newUser_exec, invalidUserId_blank, Hv. simpl.
  rewrite registered_fresh by exact Hout. reflexivity.
Qed.

Lemma newUser_fresh_appends_witness :
  onlineUsers
    (exec (newUser Sample.X Sample.alice) (run Sample.session (boot 0 [])))
  = [mkOnlineUser Sample.Y Sample.bob; mkOnlineUser Sample.X Sample.alice].
Proof.
  rewrite (newUser_fresh_appends Sample.X Sample.alice).
  - reflexivity.
  - reflexivity.
  - vm_compute. intros [H | []]. discriminate H.
Defined.

(** X3.  After any run, the registry is the roster the clients saw last;
    as long as no roster was ever broadcast the registry is empty. *)
Theorem roster_broadcast_is_current
    (es : list Event) (t0 : Z) (docs : list Doc) :
  match last_roster (effects (run es (boot t0 docs))) with
  | Some users => registry_after es t0 docs = users
  | None => registry_after es t0 docs = []
  end.
Proof.
  unfold registry_after.
  induction es as [|e es IH] using rev_ind; [reflexivity|].
  rewrite run_snoc. set (s := run es (boot t0 docs)) in *.
  assert (Happ : forall l r,
             last_roster (l ++ r)
             = fold_left (fun seen e =>
                            match e with
                            | IoEmit (usersOnline users) => Some users
                            | _ => seen
                            end) r (last_roster l)).
  { intros l r. unfold last_roster. apply fold_left_app. }
  by_handler e; repeat (rewrite Happ; simpl); try exact IH;
    try reflexivity.
  destruct (Firestore.recent (requestedLimit param) (collection s));
    exact IH.
Qed.

(** X4.  No run ever lists a user whose identifier is empty or made of
    white space only. *)
Theorem registry_never_lists_blank
    (es : list Event) (t0 : Z) (docs : list Doc) :
  Forall (fun u => whitespaceOnly (userId u) = false)
         (registry_after es t0 docs).
Proof.
  apply Forall_forall. intros u Hu.
  rewrite <- invalidUserId_blank.
  apply (registry_after_valid es t0 docs). apply in_map. exact Hu.
Qed.

Lemma removed_removed (a b : Js.str) (users : list OnlineUser) :
  removed a (removed b users) = removed b (removed a users).
Proof.
  unfold removed. induction users as [|u users IH]; simpl; [reflexivity|].
  destruct (Js.eqb (socketId u) a) eqn:Ea, (Js.eqb (socketId u) b) eqn:Eb;
    simpl; rewrite ?Ea, ?Eb; simpl; rewrite IH; reflexivity.
Qed.

Lemma removed_twice (a : Js.str) (users : list OnlineUser) :
  removed a (removed a users) = removed a users.
Proof.
  apply removed_absent. intros Hin. apply in_map_iff in Hin.
  destruct Hin as (u & Hu & Hin). apply removed_In in Hin. tauto.
Qed.

(** X5.  Disconnects compose: the registry does not depend on the order in
    which two connections close, and a second disconnect of the same
    connection changes nothing in it. *)
Theorem disconnects_commute (a b : Js.str) (s : Server) :
  onlineUsers (run [Disconnect a; Disconnect b] s)
  = onlineUsers (run [Disconnect b; Disconnect a] s)
  /\ onlineUsers (run [Disconnect a; Disconnect a] s)
     = onlineUsers (run [Disconnect a] s).
Proof.
  rewrite !run_registry. simpl. split.
  - apply removed_removed.
  - apply removed_twice.
Qed.

Lemma registered_twice (sid uid : Js.str) (users : list OnlineUser) :
  registered sid uid (registered sid uid users) = registered sid uid users.
Proof.
  rewrite (registered_known sid uid (registered sid uid users)).
  - rewrite <- (map_id (registered sid uid users)) at 2.
    apply map_ext_in. intros u Hu.
    destruct (Js.eqb (userId u) uid) eqn:E; [|reflexivity].
    apply Js_eqb_eq in E. apply registered_In in Hu.
    destruct Hu as [-> | [_ Hne]]; [reflexivity|contradiction].
  - change uid with (userId (mkOnlineUser sid uid)) at 1.
    apply in_map, registered_has.
Qed.

(** X6.  Registering again from the same connection under the same
    identifier leaves the registry as the first registration left it; the
    unchanged roster is broadcast a second time all the same. *)
Theorem newUser_repeated (sid uid : Js.str) (s : Server) :
  whitespaceOnly uid = false ->
  let once := run [NewUser sid uid] s in
  let twice := run [NewUser sid uid; NewUser sid uid] s in
  onlineUsers twice = onlineUsers once
  /\ effects twice = effects once ++ [IoEmit (usersOnline (onlineUsers once))].
Proof.
  intros Hv once twice.
  assert (Hi : invalidUserId uid = false)
    by (rewrite invalidUserId_blank; exact Hv).
  assert (Ho : onlineUsers once = registered sid uid (onlineUsers s)).
  { unfold once. rewrite run_registry. simpl. rewrite Hi. reflexivity. }
  assert (Et : twice = exec (newUser sid uid) once) by reflexivity.
  rewrite Et, newUser_exec, Hi. cbv zeta. simpl.
  rewrite Ho, registered_twice. split; reflexivity.
Qed.

Lemma newUser_repeated_witness :
  onlineUsers (run [NewUser Sample.Y Sample.bob; NewUser Sample.Y Sample.bob]
                   (run Sample.session (boot 0 [])))
  = [mkOnlineUser Sample.Y Sample.bob].
Proof.
  destruct (newUser_repeated Sample.Y Sample.bob
              (run Sample.session (boot 0 []))) as [E _].
  - reflexivity.
  - rewrite E. reflexivity.
Defined.

Lemma last_registration_snoc (uid : Js.str) (es : list Event) (e : Event) :
  last_registration uid (es ++ [e])
  = match e with
    | NewUser sid u =>
        if invalidUserId u then last_registration uid es
        else if Js.eqb u uid then Some sid else last_registration uid es
    | _ => last_registration uid es
    end.
Proof.
  unfold last_registration. rewrite fold_left_app. reflexivity.
Qed.

(** X7.  Last registration wins: after any run, every entry of the registry
    carries the connection from which its user registered most recently. *)
Theorem registry_holds_last_registration
    (es : list Event) (t0 : Z) (docs : list Doc) :
  Forall (fun u => last_registration (userId u) es = Some (socketId u))
         (registry_after es t0 docs).
Proof.
  apply Forall_forall. unfold registry_after.
  induction es as [|e es IH] using rev_ind; [intros u []|].
  intros u. rewrite run_snoc, step_registry, last_registration_snoc.
  destruct e; simpl; try apply IH.
  - destruct (invalidUserId uid); [apply IH|].
    intros Hu. apply registered_In in Hu.
    destruct Hu as [-> | [Hu Hne]]; simpl.
    + rewrite Js_eqb_refl. reflexivity.
    + destruct (Js.eqb uid (userId u)) eqn:E.
      * apply Js_eqb_eq in E. congruence.
      * apply IH, Hu.
  - intros Hu. apply removed_In in Hu. apply IH, Hu.
Qed.

(** *** The store and the log of effects *)

Lemma broadcast_docs_app (l r : list Effect) :
  broadcast_docs (l ++ r) = broadcast_docs l ++ broadcast_docs r.
Proof.
  induction l as [|[m a|[users|p]|to ev|st b] l IH]; simpl;
    rewrite ?IH; try reflexivity.
  destruct (id p); reflexivity.
Qed.

(** X8.  The store and the broadcasts go together: after any run, the
    collection is what it was at boot followed by one document for each
    chat message broadcast, in the order of the broadcasts and under the
    identifiers the broadcasts carry.  Nothing is stored without being
    broadcast. *)
Theorem collection_is_boot_plus_broadcasts
    (es : list Event) (t0 : Z) (docs : list Doc) :
  collection (run es (boot t0 docs))
  = docs ++ broadcast_docs (effects (run es (boot t0 docs))).
Proof.
  induction es as [|e es IH] using rev_ind;
    [simpl; symmetry; apply app_nil_r|].
  rewrite run_snoc. set (s := run es (boot t0 docs)) in *.
  by_handler e; rewrite ?broadcast_docs_app; simpl;
    rewrite ?app_nil_r; try exact IH.
  - rewrite IH, <- app_assoc. reflexivity.
  - destruct (Firestore.recent (requestedLimit param) (collection s));
      simpl; rewrite app_nil_r; exact IH.
Qed.

(** What one event appends to the log. *)
Lemma step_appends (s : Server) (e : Event) :
  exists new,
    effects (step s e) = effects s ++ new
    /\ (new = []
        \/ (exists users, new = [IoEmit (usersOnline users)])
        \/ (exists m i,
              new = [DbAdd m (Some i);
                     IoEmit (newMessage (mkStored m (Some i)))])
        \/ (exists m to t,
              new = [DbAdd m None;
                     SocketEmit to (newMessage (systemError t))])
        \/ (exists status body, new = [HttpJson status body])).
Proof.
  by_handler e; rewrite <- ?app_assoc; simpl.
  - exists []. rewrite app_nil_r. auto.
  - exists []. rewrite app_nil_r. auto.
  - eexists. split; [reflexivity|]. right; left. eauto.
  - exists []. rewrite app_nil_r. auto.
  - eexists. split; [reflexivity|]. right; right; left. eauto.
  - eexists. split; [reflexivity|]. right; right; right; left. eauto.
  - eexists. split; [reflexivity|]. right; left. eauto.
  - eexists. split; [reflexivity|]. right; right; right; right. eauto.
  - eexists. split; [reflexivity|]. right; right; right; right. eauto.
  - eexists. split; [reflexivity|]. right; right; right; right.
    destruct (Firestore.recent (requestedLimit param) (collection s)); eauto.
  - exists []. rewrite app_nil_r. auto.
Qed.

Lemma nth_error_app_cases {A} (l r : list A) (n : nat) (x : A) :
  nth_error (l ++ r) n = Some x ->
  (n < List.length l /\ nth_error l n = Some x)%nat
  \/ (List.length l <= n /\ nth_error r (n - List.length l) = Some x)%nat.
Proof.
  intros H. destruct (Nat.lt_ge_cases n (List.length l)) as [Hlt | Hge].
  - left. rewrite nth_error_app1 in H by exact Hlt. auto.
  - right. rewrite nth_error_app2 in H by exact Hge. auto.
Qed.

(** X9.  Private events are failure notices and nothing else: after any run,
    every event sent to a single connection is the "system" notice, and it
    directly follows a write that the store refused; conversely every
    refused write is directly followed by such a notice. *)
Theorem private_events_are_failure_notices
    (es : list Event) (t0 : Z) (docs : list Doc) :
  let log := effects (run es (boot t0 docs)) in
  (forall n to ev,
      nth_error log n = Some (SocketEmit to ev) ->
      is_failure_notice ev
      /\ exists k m, n = S k /\ nth_error log k = Some (DbAdd m None))
  /\ (forall k m,
        nth_error log k = Some (DbAdd m None) ->
        exists to t,
          nth_error log (S k)
          = Some (SocketEmit to (newMessage (systemError t)))).
Proof.
  induction es as [|e es IH] using rev_ind.
  - split; intros [|n]; intros; discriminate.
  - rewrite run_snoc. set (s := run es (boot t0 docs)) in *.
    destruct IH as [IH1 IH2].
    destruct (step_appends s e) as (new & -> & Hnew).
    split.
    + intros n to ev H. apply nth_error_app_cases in H.
      destruct H as [[Hn H] | [Hn H]].
      * destruct (IH1 n to ev H) as (Hev & k & m & -> & Hk).
        split; [exact Hev|]. exists k, m. split; [reflexivity|].
        rewrite nth_error_app1 by lia. exact Hk.
      * destruct Hnew as [-> | [(u & ->) | [(m & i & ->) | [(m & to' & t & ->)
                         | (st & b & ->)]]]];
          destruct (n - List.length (effects s))%nat as [|[|[|j]]] eqn:Ej;
          simpl in H; try discriminate.
        inversion H; subst. split; [exists t; reflexivity|].
        exists (List.length (effects s)), m. split; [lia|].
        rewrite nth_error_app2, Nat.sub_diag by lia. reflexivity.
    + intros k m H. apply nth_error_app_cases in H.
      destruct H as [[Hn H] | [Hn H]].
      * destruct (IH2 k m H) as (to & t & Hk). exists to, t.
        rewrite nth_error_app1; [exact Hk|].
        apply nth_error_Some. rewrite Hk. discriminate.
      * destruct Hnew as [-> | [(u & ->) | [(m' & i & ->) | [(m' & to' & t & ->)
                         | (st & b & ->)]]]];
          destruct (k - List.length (effects s))%nat as [|[|[|j]]] eqn:Ej;
          simpl in H; try discriminate.
        exists to', t. rewrite nth_error_app2 by lia.
        replace (S k - List.length (effects s))%nat with 1%nat by lia.
        reflexivity.
Qed.

Lemma private_events_are_failure_notices_witness :
  exists to t,
    nth_error
      (effects (run [SendMessage Sample.X Sample.hi Sample.refused]
                    (boot 50 [])))
      1
    = Some (SocketEmit to (newMessage (systemError t))).
Proof.
  destruct (private_events_are_failure_notices
              [SendMessage Sample.X Sample.hi Sample.refused] 50 [])
    as [_ H].
  apply (H 0%nat (mkMessage Sample.alice (Js.lit "hi") 50)).
  reflexivity.
Defined.

(** *** History after a send *)






(* ===================================================================== *)
(** ** Configuration read at start-up *)
(* ===================================================================== *)

Lemma trimStart_suffix (s : Js.str) :
  exists p, s = p ++ Js.trimStart s /\ whitespaceOnly p = true.
Proof.
  induction s as [|c s (p & IH & Hp)]; simpl.
  - exists []. split; reflexivity.
  - destruct (Js.isWhiteSpace c) eqn:E.
    + exists (c :: p). simpl. rewrite E, Hp. split; [f_equal; exact IH|].
      reflexivity.
    + exists []. split; reflexivity.
Qed.

Lemma trimStart_In (s : Js.str) (c : N) : In c (Js.trimStart s) -> In c s.
Proof.
  destruct (trimStart_suffix s) as (p & E & _). intros H.
  rewrite E. apply in_or_app. right. exact H.
Qed.

Lemma trimStart_fixed (s : Js.str) :
  Js.trimStart (Js.trimStart s) = Js.trimStart s.
Proof.
  induction s as [|c s IH]; simpl; [reflexivity|].
  destruct (Js.isWhiteSpace c) eqn:E; [exact IH|].
  simpl. rewrite E. reflexivity.
Qed.

Lemma trim_In (s : Js.str) (c : N) : In c (Js.trim s) -> In c s.
Proof.
  unfold Js.trim, Js.trimEnd. intros H.
  apply in_rev, trimStart_In, in_rev in H. apply trimStart_In, H.
Qed.

(** What [trim] returns neither starts nor ends with white space. *)
Lemma trim_trimmed (s : Js.str) : trimmed (Js.trim s).
Proof.
  unfold trimmed, Js.trim, Js.trimEnd.
  set (t := Js.trimStart s). set (u := Js.trimStart (rev t)).
  split; [|rewrite rev_involutive; apply trimStart_fixed].
  destruct (trimStart_suffix (rev t)) as (p & E & _). fold u in E.
  assert (Et : t = rev u ++ rev p).
  { rewrite <- rev_app_distr, <- E, rev_involutive. reflexivity. }
  destruct (rev u) as [|c w] eqn:Eu; [reflexivity|].
  simpl in Et. unfold t in Et. apply trimStart_head in Et.
  simpl. rewrite Et. reflexivity.
Qed.

Lemma split_no_separator (sep : N) (s : Js.str) (piece : Js.str) :
  In piece (JsText.split sep s) -> ~ In sep piece.
Proof.
  revert piece. induction s as [|c s IH]; simpl; intros piece H.
  - destruct H as [<- | []]. intros [].
  - destruct (N.eqb_spec c sep) as [-> | Hne].
    + destruct H as [<- | H]; [intros []|apply IH, H].
    + destruct (JsText.split sep s) as [|q qs].
      * destruct H as [<- | []]. intros [E | []]. congruence.
      * destruct H as [<- | H].
        -- intros [E | Hin]; [congruence|].
           apply (IH q); [left; reflexivity|exact Hin].
        -- apply IH. right. exact H.
Qed.

(** X12.  The list of CORS origins read from [ORIGIN]: every origin is
    a piece of the variable between two commas with the white space around
    it removed; none is empty, none contains a comma, none starts or ends
    with white space. *)
Theorem origins_are_clean (env : ProcessEnv) :
  Forall (fun o =>
            o <> []
            /\ ~ In 44%N o
            /\ trimmed o
            /\ exists piece,
                 In piece
                    (JsText.split 44
                       (match ORIGIN env with Some s => s | None => [] end))
                 /\ o = Js.trim piece)
         (origins env).
Proof.
  apply Forall_forall. intros o Ho. unfold origins in Ho.
  apply filter_In in Ho. destruct Ho as [Ho Hne].
  apply in_map_iff in Ho. destruct Ho as (piece & <- & Hp).
  split; [destruct (Js.trim piece); [discriminate|discriminate]|].
  split; [|split; [apply trim_trimmed|eauto]].
  intros Hin. apply trim_In in Hin.
  exact (split_no_separator 44 _ piece Hp Hin).
Qed.

Example origins_of_readme :
  origins (mkEnv (Some (Js.lit "http://localhost:5173, https://chat.example ,"))
                 None None None)
  = [Js.lit "http://localhost:5173"; Js.lit "https://chat.example"].
Proof. reflexivity. Qed.

Example origins_unset : origins (mkEnv None None None None) = [].
Proof. reflexivity. Qed.

(** *** The private key and Firebase start-up *)

Lemma unescape_head (c : N) (r : Js.str) :
  exists h t, JsText.unescapeNewlines (c :: r) = h :: t /\ (h = 10%N \/ h = c).
Proof.
  destruct r as [|d r']; simpl; [eauto|].
  destruct ((c =? 92) && (d =? 110))%N; eauto.
Qed.

Lemma unescape_step (c d : N) (r : Js.str) :
  JsText.unescapeNewlines (c :: d :: r)
  = if ((c =? 92) && (d =? 110))%N
    then 10%N :: JsText.unescapeNewlines r
    else c :: JsText.unescapeNewlines (d :: r).
Proof. reflexivity. Qed.

Lemma hasEscapedNewline_step (c d : N) (r : Js.str) :
  JsText.hasEscapedNewline (c :: d :: r)
  = ((c =? 92) && (d =? 110))%N || JsText.hasEscapedNewline (d :: r).
Proof. reflexivity. Qed.

Lemma unescape_clears_upto (n : nat) (s : Js.str) :
  (List.length s <= n)%nat ->
  JsText.hasEscapedNewline (JsText.unescapeNewlines s) = false.
Proof.
  revert s. induction n as [|n IH]; intros [|c [|d r']] Hlen;
    try reflexivity; simpl in Hlen; try lia.
  rewrite unescape_step.
  destruct ((c =? 92) && (d =? 110))%N eqn:E.
  - assert (H := IH r' ltac:(lia)).
    destruct (JsText.unescapeNewlines r') as [|h t]; [reflexivity|].
    rewrite hasEscapedNewline_step. exact H.
  - assert (H := IH (d :: r') ltac:(simpl; lia)).
    destruct (unescape_head d r') as (h & t & Eh & Hh).
    rewrite Eh in *. rewrite hasEscapedNewline_step, H, orb_false_r.
    destruct Hh as [-> | ->]; [|exact E].
    rewrite andb_false_r. reflexivity.
Qed.

Lemma unescape_clears (s : Js.str) :
  JsText.hasEscapedNewline (JsText.unescapeNewlines s) = false.
Proof. exact (unescape_clears_upto (List.length s) s (le_n _)). Qed.




Example private_key_of_readme :
  JsText.unescapeNewlines (Js.lit "-----BEGIN-----\nKEY\n-----END-----\n")
  = Js.lit "-----BEGIN-----" ++ [10%N] ++ Js.lit "KEY" ++ [10%N]
      ++ Js.lit "-----END-----" ++ [10%N].
Proof. reflexivity. Qed.

Lemma unset_unescaped (key : option Js.str) :
  unset (option_map JsText.unescapeNewlines key) = unset key.
Proof.
  destruct key as [[|c r]|]; try reflexivity.
  destruct (unescape_head c r) as (h & t & E & _).
  unfold option_map. rewrite E. reflexivity.
Qed.

Lemma initializeFirebase_ready
    (cert : ServiceAccount -> bool) (env : ProcessEnv)
    (apps : list ServiceAccount) :
  initializeFirebase cert env [] = Ready apps ->
  exists p k e,
    FIREBASE_PROJECT_ID env = Some p
    /\ FIREBASE_PRIVATE_KEY env = Some k
    /\ FIREBASE_CLIENT_EMAIL env = Some e
    /\ apps = [mkAccount p (JsText.unescapeNewlines k) e]
    /\ cert (mkAccount p (JsText.unescapeNewlines k) e) = true.
Proof.
  unfold initializeFirebase.
  destruct (FIREBASE_PROJECT_ID env) as [p|],
           (FIREBASE_PRIVATE_KEY env) as [k|],
           (FIREBASE_CLIENT_EMAIL env) as [e|]; simpl;
    try discriminate;
    try (destruct (_ || _); discriminate).
  destruct (negb (Js.truthy p)
            || negb (Js.truthy (JsText.unescapeNewlines k))
            || negb (Js.truthy e)); [discriminate|].
  destruct (cert (mkAccount p (JsText.unescapeNewlines k) e)) eqn:Ec;
    [|discriminate].
  intros H. inversion H; subst. exists p, k, e. repeat split. exact Ec.
Qed.

Lemma initializeFirebase_missing
    (cert : ServiceAccount -> bool) (env : ProcessEnv) :
  initializeFirebase cert env [] = MissingConfiguration
  <-> unset (FIREBASE_PROJECT_ID env) = true
      \/ unset (FIREBASE_PRIVATE_KEY env) = true
      \/ unset (FIREBASE_CLIENT_EMAIL env) = true.
Proof.
  unfold initializeFirebase. rewrite unset_unescaped.
  destruct (unset (FIREBASE_PROJECT_ID env)) eqn:E1; simpl;
    [split; auto|].
  destruct (unset (FIREBASE_PRIVATE_KEY env)) eqn:E2; simpl;
    [split; auto|].
  destruct (unset (FIREBASE_CLIENT_EMAIL env)) eqn:E3; simpl;
    [split; auto|].
  destruct (FIREBASE_PROJECT_ID env) as [p|]; [|discriminate].
  destruct (FIREBASE_PRIVATE_KEY env) as [k|]; [|discriminate].
  destruct (FIREBASE_CLIENT_EMAIL env) as [e|]; [|discriminate].
  simpl. destruct (cert _); split; try discriminate;
    intros [H | [H | H]]; discriminate.
Qed.

(** X14.  Firebase start-up with no app registered yet.  It stops with
    "Missing Firebase configuration" exactly when the project id, the
    private key or the client e-mail is unset or empty, and then does not
    call the SDK; otherwise the service account it hands to the SDK carries
    the project id and e-mail unchanged and the private key with its
    backslash-n turned into line feeds, and when the SDK accepts it exactly
    one app is registered. *)
Theorem initializeFirebase_first_start
    (cert : ServiceAccount -> bool) (env : ProcessEnv) :
  (initializeFirebase cert env [] = MissingConfiguration
   <-> unset (FIREBASE_PROJECT_ID env) = true
       \/ unset (FIREBASE_PRIVATE_KEY env) = true
       \/ unset (FIREBASE_CLIENT_EMAIL env) = true)
  /\ (forall apps,
        initializeFirebase cert env [] = Ready apps ->
        exists p k e,
          FIREBASE_PROJECT_ID env = Some p
          /\ FIREBASE_PRIVATE_KEY env = Some k
          /\ FIREBASE_CLIENT_EMAIL env = Some e
          /\ apps = [mkAccount p (JsText.unescapeNewlines k) e]
          /\ cert (mkAccount p (JsText.unescapeNewlines k) e) = true
          /\ JsText.hasEscapedNewline (privateKey (mkAccount p
                 (JsText.unescapeNewlines k) e)) = false).
Proof.
  split; [apply initializeFirebase_missing|].
  intros apps H.
  destruct (initializeFirebase_ready cert env apps H)
    as (p & k & e & Hp & Hk & He & Ha & Hc).
  exists p, k, e. repeat split; try assumption.
  apply unescape_clears.
Qed.

Lemma initializeFirebase_first_start_witness :
  initializeFirebase (fun _ => true)
    (mkEnv None (Some (Js.lit "eisc-chat")) (Some (Js.lit "")) None) []
  = MissingConfiguration.
Proof.
  apply (proj1 (initializeFirebase_first_start (fun _ => true)
                  (mkEnv None (Some (Js.lit "eisc-chat"))
                         (Some (Js.lit "")) None))).
  right. left. reflexivity.
Defined.

(** X15.  Firebase start-up is done once: with an app registered it changes
    nothing and cannot fail, whatever the environment holds; so a second
    start-up after a successful one returns the app of the first. *)
Theorem initializeFirebase_once
    (cert cert' : ServiceAccount -> bool) (env env' : ProcessEnv)
    (apps : list ServiceAccount) :
  initializeFirebase cert env [] = Ready apps ->
  initializeFirebase cert' env' apps = Ready apps.
Proof.
  intros H.
  destruct (initializeFirebase_ready cert env apps H)
    as (p & k & e & _ & _ & _ & -> & _).
  reflexivity.
Qed.

Lemma initializeFirebase_once_witness :
  initializeFirebase (fun _ => false) (mkEnv None None None None)
    [mkAccount (Js.lit "eisc-chat") (Js.lit "KEY" ++ [10%N])
               (Js.lit "admin@eisc-chat")]
  = Ready [mkAccount (Js.lit "eisc-chat") (Js.lit "KEY" ++ [10%N])
                     (Js.lit "admin@eisc-chat")].
Proof.
  apply (initializeFirebase_once (fun _ => true) (fun _ => false)
           (mkEnv None (Some (Js.lit "eisc-chat")) (Some (Js.lit "KEY\n"))
                  (Some (Js.lit "admin@eisc-chat")))).
  reflexivity.
Defined.

(* ===================================================================== *)
(** ** Deleting messages *)
(* ===================================================================== *)

Lemma deleteMessage_run (messageId : Js.str) (reply : DeleteReply)
    (s : Server) :
  deleteMessage messageId reply s
  = if documentPath messageId then
      let t := clock s + Z.of_N (delete_latency reply) in
      if deleted reply then
        (Returned tt,
         mkServer (onlineUsers s) t
                  (filter (fun d => negb (Js.eqb (doc_id d) messageId))
                          (collection s))
                  (effects s))
      else (Thrown, mkServer (onlineUsers s) t (collection s) (effects s))
    else (Thrown, s).
Proof.
  unfold deleteMessage, try_catch, bind, db_delete.
  destruct (documentPath messageId); [|reflexivity].
  destruct (deleted reply); reflexivity.
Qed.

(** When the promise of [deleteMessage] resolves, the documents with the
    given identifier are gone. *)
Lemma deleteMessage_resolved (messageId : Js.str) (reply : DeleteReply)
    (s : Server) :
  fst (deleteMessage messageId reply s) = Returned tt ->
  collection (snd (deleteMessage messageId reply s))
  = filter (fun d => negb (Js.eqb (doc_id d) messageId)) (collection s).
Proof.
  rewrite deleteMessage_run.
  destruct (documentPath messageId); [|discriminate].
  cbv zeta. destruct (deleted reply); [reflexivity|discriminate].
Qed.






Example deleteMessage_empty_id :
  deleteMessage (Js.lit "") (mkDeleteReply true 3) (boot 50 [Sample.old])
  = (Thrown, boot 50 [Sample.old]).
Proof. reflexivity. Qed.

Example deleteMessage_collection_path :
  fst (deleteMessage (Js.lit "doc-0/replies") (mkDeleteReply true 3)
         (boot 50 [Sample.old]))
  = Thrown.
Proof. reflexivity. Qed.

Lemma filter_keeps_all {A} (f : A -> bool) (l : list A) :
  (forall x, In x l -> f x = true) -> filter f l = l.
Proof.
  induction l as [|a l IH]; simpl; intros H; [reflexivity|].
  rewrite (H a) by (left; reflexivity). f_equal. apply IH. auto.
Qed.

(** X17.  Send, then delete: when the store accepts a message under an
    identifier no stored document carries, and the deletion of that
    identifier then resolves, the collection is back to what it was before
    the send. *)
Theorem send_then_delete_restores
    (sid : Js.str) (payload : SendMessagePayload) (reply : AddReply)
    (i : Js.str) (del : DeleteReply) (s : Server) :
  payload_senderId payload <> [] ->
  payload_text payload <> [] ->
  assigned reply = Some i ->
  fst (deleteMessage i del (exec (sendMessage sid payload reply) s))
  = Returned tt ->
  ~ In i (map doc_id (collection s)) ->
  collection
    (snd (deleteMessage i del (exec (sendMessage sid payload reply) s)))
  = collection s.
Proof.
  intros Hs Ht Hi Hd Hfresh.
  rewrite (deleteMessage_resolved _ _ _ Hd).
  rewrite (sendMessage_stored sid payload reply i) by assumption.
  cbv zeta. simpl. rewrite filter_app. simpl.
  rewrite Js_eqb_refl. simpl. rewrite app_nil_r.
  apply filter_keeps_all. intros d Hin.
  apply negb_true_iff, Js_eqb_neq. intros E. apply Hfresh.
  rewrite <- E. apply in_map. exact Hin.
Qed.

Lemma send_then_delete_restores_witness :
  collection
    (snd (deleteMessage (Js.lit "doc-1") (mkDeleteReply true 3)
            (exec (sendMessage Sample.X Sample.hi Sample.accepted)
                  (boot 50 [Sample.old]))))
  = [Sample.old].
Proof.
  apply (send_then_delete_restores
           Sample.X Sample.hi Sample.accepted (Js.lit "doc-1")
           (mkDeleteReply true 3) (boot 50 [Sample.old])).
  - vm_compute. discriminate.
  - vm_compute. discriminate.
  - reflexivity.
  - reflexivity.
  - vm_compute. intros [H | []]. discriminate H.
Defined.

Lemma recent_incl (n : Js.num) (docs snapshot : list Doc) :
  Firestore.recent n docs = Some snapshot -> incl snapshot docs.
Proof.
  unfold Firestore.recent. destruct n as [|z|]; try discriminate.
  destruct ((z <? 0) || (Js.MAX_SAFE_INTEGER <? z)); [discriminate|].
  intros H d Hd. apply (Permutation_in _ (orderBy_perm docs)).
  destruct (z =? 0); inversion H; subst; [exact Hd|].
  rewrite <- (firstn_skipn (Z.to_nat z)). apply in_or_app. left. exact Hd.
Qed.

(** X18.  A deleted message is gone from the history: once the deletion of
    an identifier has resolved, [getAllMessages] resolves, for any limit, to
    messages none of which carries that identifier. *)
Theorem deleted_message_not_in_history
    (messageId : Js.str) (del : DeleteReply) (limit : option Z)
    (s : Server) (msgs : list StoredMessage) :
  fst (deleteMessage messageId del s) = Returned tt ->
  fst (getAllMessages limit (snd (deleteMessage messageId del s)))
  = Returned msgs ->
  Forall (fun m => id m <> Some messageId) msgs.
Proof.
  intros Hd.
  unfold getAllMessages, try_catch, bind, db_recent.
  rewrite (deleteMessage_resolved _ _ _ Hd).
  destruct (Firestore.recent _ _) as [snap|] eqn:E; simpl; [|discriminate].
  intros H. inversion H; subst. apply Forall_forall. intros m Hm.
  apply in_rev, in_map_iff in Hm. destruct Hm as (d & <- & Hdoc).
  apply (recent_incl _ _ _ E), filter_In in Hdoc. destruct Hdoc as [_ Hne].
  apply negb_true_iff, Js_eqb_neq in Hne. simpl. congruence.
Qed.

Lemma deleted_message_not_in_history_witness :
  Forall (fun m => id m <> Some (Js.lit "doc-0"))
         [mkStored (mkMessage Sample.alice (Js.lit "hi") 50)
                   (Some (Js.lit "doc-1"))].
Proof.
  apply (deleted_message_not_in_history
           (Js.lit "doc-0") (mkDeleteReply true 3) None
           (exec (sendMessage Sample.X Sample.hi Sample.accepted)
                 (boot 50 [Sample.old]))).
  - reflexivity.
  - reflexivity.
Defined.

(* ===================================================================== *)
(** ** The client helper of the integration guide *)
(* ===================================================================== *)

Lemma trim_not_blank (text : Js.str) :
  Js.trim text <> [] -> whitespaceOnly (Js.trim text) = false.
Proof.
  intros Hne. destruct (whitespaceOnly (Js.trim text)) eqn:E; [|reflexivity].
  apply trimStart_blank in E.
  destruct (trim_trimmed text) as [H _]. congruence.
Qed.

(** X19.  What the guide's client helper emits always reaches the store:
    the payload carries the sender as given and the text with the white
    space around it removed, that text is neither empty nor made of white
    space, and the server's [sendMessage] never drops it: whatever the store
    answers, the handler attempts the write of exactly that message. *)
Theorem client_payload_reaches_store
    (socket : option bool) (senderId text : Js.str)
    (p : SendMessagePayload)
    (sid : Js.str) (reply : AddReply) (s : Server) :
  clientSendMessage socket senderId text = Emit p ->
  p = mkPayload senderId (Js.trim text)
  /\ socket = Some true
  /\ whitespaceOnly text = false
  /\ whitespaceOnly (payload_text p) = false
  /\ trimmed (payload_text p)
  /\ exists rest,
       effects (exec (sendMessage sid p reply) s)
       = effects s
           ++ DbAdd (mkMessage senderId (Js.trim text) (clock s))
                    (assigned reply) :: rest.
Proof.
  unfold clientSendMessage.
  destruct socket as [[|]|]; simpl; try discriminate.
  destruct (Js.truthy senderId) eqn:Es; simpl; [|discriminate].
  destruct (Js.truthy (Js.trim text)) eqn:Et; simpl; [|discriminate].
  intros H. inversion H; subst p. simpl.
  assert (Hs : senderId <> [])
    by (intros E; rewrite E in Es; discriminate).
  assert (Hne : Js.trim text <> [])
    by (intros E; rewrite E in Et; discriminate).
  split; [reflexivity|]. split; [reflexivity|]. split.
  { destruct (whitespaceOnly text) eqn:E; [|reflexivity].
    apply trim_blank in E. congruence. }
  split; [apply trim_not_blank, Hne|].
  split; [apply trim_trimmed|].
  destruct (assigned reply) as [i|] eqn:Ei.
  - rewrite (sendMessage_stored sid _ reply i) by assumption.
    simpl. rewrite <- app_assoc. eexists. reflexivity.
  - rewrite sendMessage_failed by assumption.
    simpl. rewrite <- app_assoc. eexists. reflexivity.
Qed.

Lemma client_payload_reaches_store_witness :
  exists rest,
    effects (exec (sendMessage Sample.X
                     (mkPayload Sample.alice (Js.lit "hi")) Sample.refused)
                  (boot 50 []))
    = [] ++ DbAdd (mkMessage Sample.alice (Js.trim (Js.lit "  hi ")) 50)
                  None :: rest.
Proof.
  destruct (client_payload_reaches_store
              (Some true) Sample.alice (Js.lit "  hi ")
              (mkPayload Sample.alice (Js.lit "hi"))
              Sample.X Sample.refused (boot 50 []))
    as (_ & _ & _ & _ & _ & H).
  - reflexivity.
  - exact H.
Defined.

(* ===================================================================== *)
(** ** The limit parameter, from the client to the query *)
(* ===================================================================== *)

Lemma digit_decimal (r : N) :
  (r < 10)%N -> Js.digit 10 (48 + r) = Some (Z.of_N r).
Proof.
  intros H. unfold Js.digit. cbv zeta.
  replace (48 <=? Z.of_N (48 + r)) with true
    by (symmetry; apply Z.leb_le; lia).
  replace (Z.of_N (48 + r) <=? 57) with true
    by (symmetry; apply Z.leb_le; lia).
  cbn [andb].
  replace (Z.of_N (48 + r) - 48 <? 10) with true
    by (symmetry; apply Z.ltb_lt; lia).
  f_equal. lia.
Qed.

Lemma digits_decimal_fuel (fuel : nat) (n : N) (acc : Js.str) :
  (N.to_nat n < fuel)%nat ->
  Js.digits 10 (JsText.decimal_fuel fuel n acc) None
  = Js.digits 10 acc (Some (Z.of_N n)).
Proof.
  revert n acc. induction fuel as [|fuel IH]; intros n acc Hf; [lia|].
  cbn [JsText.decimal_fuel].
  assert (Hmod : (n mod 10 < 10)%N) by (apply N.mod_lt; discriminate).
  destruct (N.ltb_spec n 10) as [Hlt | Hge].
  - rewrite N.mod_small by exact Hlt.
    cbn [Js.digits]. rewrite digit_decimal by exact Hlt. reflexivity.
  - rewrite IH.
    + cbn [Js.digits]. rewrite digit_decimal by exact Hmod.
      do 2 f_equal.
      rewrite (N.div_mod n 10) at 3 by discriminate. lia.
    + assert (n / 10 < n)%N by (apply N.div_lt; lia). lia.
Qed.

Lemma decimal_fuel_digits (fuel : nat) (n : N) (acc : Js.str) :
  Forall (fun c => (48 <= c <= 57)%N) acc ->
  Forall (fun c => (48 <= c <= 57)%N) (JsText.decimal_fuel fuel n acc).
Proof.
  revert n acc. induction fuel as [|fuel IH]; intros n acc Hacc;
    [exact Hacc|].
  cbn [JsText.decimal_fuel].
  assert (Hmod : (n mod 10 < 10)%N) by (apply N.mod_lt; discriminate).
  assert (Hc : Forall (fun c => (48 <= c <= 57)%N) ((48 + n mod 10)%N :: acc))
    by (constructor; [revert Hmod; generalize (n mod 10)%N; intros; lia
                     |exact Hacc]).
  destruct (n <? 10)%N; [exact Hc|apply IH, Hc].
Qed.

Lemma decimal_digit_cases (c : N) :
  (48 <= c <= 57)%N -> In c [48; 49; 50; 51; 52; 53; 54; 55; 56; 57]%N.
Proof. intros H. simpl. lia. Qed.

(** Reading a string whose first code units are known digits. *)
Ltac parse_known_digits :=
  unfold Js.parseInt;
  match goal with
  | |- context [Js.trimStart (?c :: ?r)] =>
      change (Js.trimStart (c :: r)) with (c :: r)
  end;
  cbv beta iota zeta;
  match goal with
  | |- context [Js.digits ?a ?b ?c] =>
      destruct (Js.digits a b c); rewrite ?Z.mul_1_l; reflexivity
  end.

(** On a string of decimal digits [parseInt] reads all of it in base 10. *)
Lemma parseInt_digits (s : Js.str) :
  Forall (fun c => (48 <= c <= 57)%N) s ->
  Js.parseInt s
  = match Js.digits 10 s None with
    | Some v =>
        if Z.abs v <=? Js.MAX_SAFE_INTEGER then Js.Int v else Js.Unsafe
    | None => Js.NaN
    end.
Proof.
  intros H. destruct s as [|c r]; [reflexivity|].
  inversion H as [|? ? Hc Hr]; subst.
  apply decimal_digit_cases in Hc. simpl in Hc.
  repeat (destruct Hc as [<- | Hc]; [try parse_known_digits|]);
    try contradiction.
  destruct r as [|d r']; [reflexivity|].
  inversion Hr as [|? ? Hd _]; subst.
  apply decimal_digit_cases in Hd. simpl in Hd.
  repeat (destruct Hd as [<- | Hd]; [parse_known_digits|]).
  contradiction.
Qed.

(** X20.  The limit survives the trip from the client: for a natural number
    within the safe integers, written in decimal as the guide's
    [fetchChatHistory] writes it into the query string, [parseInt] reads the
    number back; the route then queries with that very limit, except for 0,
    which it replaces by 100. *)
Theorem limit_round_trip (n : N) :
  (n <= 9007199254740991)%N ->
  Js.parseInt (JsText.decimal n) = Js.Int (Z.of_N n)
  /\ requestedLimit (Some (JsText.decimal n))
     = Js.Int (if (n =? 0)%N then 100 else Z.of_N n).
Proof.
  intros Hn.
  assert (E : Js.parseInt (JsText.decimal n) = Js.Int (Z.of_N n)).
  { rewrite parseInt_digits.
    - unfold JsText.decimal. rewrite digits_decimal_fuel by lia.
      cbn [Js.digits].
      destruct (Z.leb_spec (Z.abs (Z.of_N n)) Js.MAX_SAFE_INTEGER)
        as [_ | H]; [reflexivity|].
      unfold Js.MAX_SAFE_INTEGER in H. lia.
    - apply decimal_fuel_digits. constructor. }
  split; [exact E|].
  unfold requestedLimit. rewrite E. simpl.
  destruct (N.eqb_spec n 0) as [-> | Hz]; [reflexivity|].
  destruct (Z.eqb_spec (Z.of_N n) 0); [lia|reflexivity].
Qed.

Lemma limit_round_trip_witness :
  requestedLimit (Some (JsText.decimal 50)) = Js.Int 50.
Proof.
  destruct (limit_round_trip 50) as [_ E].
  - vm_compute. discriminate.
  - exact E.
Defined.

Example decimal_fifty : JsText.decimal 50 = Js.lit "50".
Proof. reflexivity. Qed.

Example decimal_zero : JsText.decimal 0 = Js.lit "0".
Proof. reflexivity. Qed.
